(** * practice-english-conversation: the turn-taking controller of [App.tsx]

    A shallow embedding of the React component [App] (src/App.tsx), of
    [geminiService] (src/services/geminiService.ts) and of the data types of
    [types.ts].  The component's [useState] cells and its [useRef] become one
    record; every event handler becomes a function from the state it closes
    over to the next state and the list of calls it makes on the browser and
    on the chat service.  An [async] handler is cut at each [await]: the
    part before it and the continuation are separate steps, so other events
    can fall in between, as they do on the JavaScript event loop.  A second
    record keeps what the browser still owes the page (pending promises,
    queued utterances, an active recognizer), so that a callback fires only
    when it can. *)

From Stdlib Require Import String Ascii List NArith Bool Arith Lia.
From Stdlib Require Import DecimalString DecimalPos DecimalN Sorted.
Import ListNotations.
Open Scope string_scope.

(** ** JavaScript strings

    A string is a sequence of code units; the embedding keeps those below
    256, one [ascii] each. *)

Module JsString.

(** [String.prototype.trim] removes WhiteSpace and LineTerminator code
    points: TAB, LF, VT, FF, CR, SPACE and NBSP are the ones below 256. *)
Definition is_white_space (c : ascii) : bool :=
  let n := nat_of_ascii c in
  ((n =? 9) || (n =? 10) || (n =? 11) || (n =? 12) || (n =? 13)
   || (n =? 32) || (n =? 160))%nat.

Fixpoint trimStart (s : string) : string :=
  match s with
  | EmptyString => EmptyString
  | String c r => if is_white_space c then trimStart r else s
  end.

Fixpoint trimEnd (s : string) : string :=
  match s with
  | EmptyString => EmptyString
  | String c r =>
      match trimEnd r with
      | EmptyString => if is_white_space c then EmptyString else String c EmptyString
      | r' => String c r'
      end
  end.

Definition trim (s : string) : string := trimEnd (trimStart s).

(** Truthiness of a string: the empty string is the only falsy one. *)
Definition truthy (s : string) : bool :=
  match s with EmptyString => false | String _ _ => true end.

(** [a || b] on strings. *)
Definition or_else (a b : string) : string := if truthy a then a else b.

(** [hay.includes(needle)]. *)
Fixpoint includes (needle hay : string) : bool :=
  prefix needle hay
  || match hay with
     | EmptyString => false
     | String _ r => includes needle r
     end.

(** [Number.prototype.toString] on a non-negative integer. *)
Definition toString (n : N) : string := NilZero.string_of_uint (N.to_uint n).

Definition all_white_space (s : string) : bool :=
  forallb is_white_space (list_ascii_of_string s).

End JsString.

(** ** types.ts *)

Inductive Sender : Type := USER | AI.

Definition Sender_eqb (a b : Sender) : bool :=
  match a, b with
  | USER, USER | AI, AI => true
  | _, _ => false
  end.

(** [timestamp: Date] is kept as the clock reading it was built from. *)
Record Message : Type := mkMessage {
  id : string;
  text : string;
  sender : Sender;
  timestamp : N
}.

(** A recognition result, with the transcript of its alternative 0 (the only
    one the component reads). *)
Record SpeechRecognitionResult : Type := mkResult {
  transcript : string;
  isFinal : bool
}.

Record SpeechRecognitionEvent : Type := mkResultEvent {
  resultIndex : nat;
  results : list SpeechRecognitionResult
}.

Inductive SpeechRecognitionErrorCode : Type :=
  | no_speech | aborted | audio_capture | network | not_allowed
  | service_not_allowed | bad_grammar | language_not_supported.

Definition error_code_string (c : SpeechRecognitionErrorCode) : string :=
  match c with
  | no_speech => "no-speech"
  | aborted => "aborted"
  | audio_capture => "audio-capture"
  | network => "network"
  | not_allowed => "not-allowed"
  | service_not_allowed => "service-not-allowed"
  | bad_grammar => "bad-grammar"
  | language_not_supported => "language-not-supported"
  end.

(** The opaque chat session of [@google/genai]. *)
Inductive Chat : Type := ChatHandle (n : nat).

(** What the component finds in its environment: whether
    [process.env.API_KEY] is truthy (every test on it is [!API_KEY]),
    [window.SpeechRecognition || window.webkitSpeechRecognition] and
    ['speechSynthesis' in window]. *)
Record Env : Type := mkEnv {
  API_KEY : bool;
  hasRecognition : bool;
  hasSpeechSynthesis : bool
}.

(** A thrown value or a returned one. *)
Inductive Completion (A : Type) : Type :=
  | Returned (a : A)
  | Thrown (message : string).
Arguments Returned {A} a.
Arguments Thrown {A} message.

(** ** services/geminiService.ts *)

Module geminiService.

(** How [ai.chats.create] ends. *)
Inductive CreateOutcome : Type :=
  | CreateOk (c : Chat)
  | CreateThrows (message : string).

(** How the promise of [chat.sendMessage] settles: with a response text,
    with an [Error], or with a value that is no [Error]. *)
Inductive SendOutcome : Type :=
  | SendOk (response_text : string)
  | SendError (message : string)
  | SendOther.

Definition createChatSession (env : Env) (o : CreateOutcome) : Completion Chat :=
  if negb (API_KEY env) then
    Thrown "API_KEY environment variable is not set. Cannot create chat session."
  else
    match o with
    | CreateOk c => Returned c
    | CreateThrows m => Thrown m
    end.

Definition getAIChatResponse (env : Env) (o : SendOutcome) : Completion string :=
  if negb (API_KEY env) then
    Thrown "API_KEY environment variable is not set. Cannot get AI response."
  else
    match o with
    | SendOk t => Returned t
    | SendError m => Thrown ("Failed to get AI response: " ++ m)
    | SendOther => Thrown "Failed to get AI response due to an unknown error."
    end.

End geminiService.

(** ** App.tsx: state *)

Module App.

Import JsString.

(** The [useState] cells of the component and [userTranscriptRef.current]. *)
Record AppState : Type := mkApp {
  chat : option Chat;
  messages : list Message;
  isRecording : bool;
  interimTranscript : string;
  userTranscriptRef : string;
  isLoadingAI : bool;
  isAISpeaking : bool;
  error : option string;
  isInitialized : bool;
  apiKeyMissing : bool;
  conversationStarted : bool
}.

Definition setChat v a :=
  mkApp v (messages a) (isRecording a) (interimTranscript a) (userTranscriptRef a)
    (isLoadingAI a) (isAISpeaking a) (error a) (isInitialized a) (apiKeyMissing a)
    (conversationStarted a).
Definition setMessages v a :=
  mkApp (chat a) v (isRecording a) (interimTranscript a) (userTranscriptRef a)
    (isLoadingAI a) (isAISpeaking a) (error a) (isInitialized a) (apiKeyMissing a)
    (conversationStarted a).
Definition setIsRecording v a :=
  mkApp (chat a) (messages a) v (interimTranscript a) (userTranscriptRef a)
    (isLoadingAI a) (isAISpeaking a) (error a) (isInitialized a) (apiKeyMissing a)
    (conversationStarted a).
Definition setInterimTranscript v a :=
  mkApp (chat a) (messages a) (isRecording a) v (userTranscriptRef a)
    (isLoadingAI a) (isAISpeaking a) (error a) (isInitialized a) (apiKeyMissing a)
    (conversationStarted a).
Definition setUserTranscriptRef v a :=
  mkApp (chat a) (messages a) (isRecording a) (interimTranscript a) v
    (isLoadingAI a) (isAISpeaking a) (error a) (isInitialized a) (apiKeyMissing a)
    (conversationStarted a).
Definition setIsLoadingAI v a :=
  mkApp (chat a) (messages a) (isRecording a) (interimTranscript a) (userTranscriptRef a)
    v (isAISpeaking a) (error a) (isInitialized a) (apiKeyMissing a)
    (conversationStarted a).
Definition setIsAISpeaking v a :=
  mkApp (chat a) (messages a) (isRecording a) (interimTranscript a) (userTranscriptRef a)
    (isLoadingAI a) v (error a) (isInitialized a) (apiKeyMissing a)
    (conversationStarted a).
Definition setError v a :=
  mkApp (chat a) (messages a) (isRecording a) (interimTranscript a) (userTranscriptRef a)
    (isLoadingAI a) (isAISpeaking a) v (isInitialized a) (apiKeyMissing a)
    (conversationStarted a).
Definition setIsInitialized v a :=
  mkApp (chat a) (messages a) (isRecording a) (interimTranscript a) (userTranscriptRef a)
    (isLoadingAI a) (isAISpeaking a) (error a) v (apiKeyMissing a)
    (conversationStarted a).
Definition setApiKeyMissing v a :=
  mkApp (chat a) (messages a) (isRecording a) (interimTranscript a) (userTranscriptRef a)
    (isLoadingAI a) (isAISpeaking a) (error a) (isInitialized a) v
    (conversationStarted a).
Definition setConversationStarted v a :=
  mkApp (chat a) (messages a) (isRecording a) (interimTranscript a) (userTranscriptRef a)
    (isLoadingAI a) (isAISpeaking a) (error a) (isInitialized a) (apiKeyMissing a)
    v.

(** [setMessages(prev => [...prev, m])]. *)
Definition appendMessage (m : Message) (a : AppState) : AppState :=
  setMessages (messages a ++ [m])%list a.

(** What the handlers assigned to [recognition.onresult], [onerror] and
    [onend] close over: the [isRecording] of the render that installed them
    and the [chat] inside its [processAndSendTranscript]. *)
Record RecClosure : Type := mkClosure {
  cl_isRecording : bool;
  cl_chat : option Chat
}.

(** The browser's side of the page: what has been asked of it and has not
    called back yet.
    - [mounted]: the mount effect has run;
    - [recHandlers]: the handlers on the [recognition] object, if assigned;
    - [recActive]: [recognition.start()] was called and [end] has not fired;
    - [gumPending]: [getUserMedia] promises not settled;
    - [backendPending]: [getAIChatResponse] promises not settled;
    - [synthQueued]: utterances given to [speechSynthesis.speak], not begun;
    - [synthSpeaking]: [speechSynthesis.speaking];
    - [synthDropped]: utterances removed by [speechSynthesis.cancel] whose
      last callback has not fired. *)
Record Browser : Type := mkBrowser {
  mounted : bool;
  recHandlers : option RecClosure;
  recActive : bool;
  gumPending : nat;
  backendPending : nat;
  synthQueued : nat;
  synthSpeaking : bool;
  synthDropped : nat
}.

Definition setMounted v b :=
  mkBrowser v (recHandlers b) (recActive b) (gumPending b) (backendPending b)
    (synthQueued b) (synthSpeaking b) (synthDropped b).
Definition setRecHandlers v b :=
  mkBrowser (mounted b) v (recActive b) (gumPending b) (backendPending b)
    (synthQueued b) (synthSpeaking b) (synthDropped b).
Definition setRecActive v b :=
  mkBrowser (mounted b) (recHandlers b) v (gumPending b) (backendPending b)
    (synthQueued b) (synthSpeaking b) (synthDropped b).
Definition setGumPending v b :=
  mkBrowser (mounted b) (recHandlers b) (recActive b) v (backendPending b)
    (synthQueued b) (synthSpeaking b) (synthDropped b).
Definition setBackendPending v b :=
  mkBrowser (mounted b) (recHandlers b) (recActive b) (gumPending b) v
    (synthQueued b) (synthSpeaking b) (synthDropped b).
Definition setSynthQueued v b :=
  mkBrowser (mounted b) (recHandlers b) (recActive b) (gumPending b) (backendPending b)
    v (synthSpeaking b) (synthDropped b).
Definition setSynthSpeaking v b :=
  mkBrowser (mounted b) (recHandlers b) (recActive b) (gumPending b) (backendPending b)
    (synthQueued b) v (synthDropped b).
Definition setSynthDropped v b :=
  mkBrowser (mounted b) (recHandlers b) (recActive b) (gumPending b) (backendPending b)
    (synthQueued b) (synthSpeaking b) v.

Record World : Type := mkWorld {
  app : AppState;
  browser : Browser
}.

Definition on_app (f : AppState -> AppState) (w : World) : World :=
  mkWorld (f (app w)) (browser w).
Definition on_browser (f : Browser -> Browser) (w : World) : World :=
  mkWorld (app w) (f (browser w)).

(** The state of the first render, before any effect has run, on a page
    whose modules have loaded ([Loading.load] below). *)
Definition initial : World :=
  mkWorld
    (mkApp None [] false "" "" false false None false false false)
    (mkBrowser false None false 0 0 0 false 0).

(** The calls the component makes on its collaborators. *)
Inductive Call : Type :=
  | chats_create
  | sendMessage (c : Chat) (message : string)
  | synth_speak (utterance_text : string)
  | synth_cancel
  | recognition_start
  | recognition_stop
  | getUserMedia.

Definition Outcome : Type := (World * list Call)%type.

(** Sequencing of two parts of a handler, collecting their calls. *)
Definition and_then (o : Outcome) (k : World -> Outcome) : Outcome :=
  let '(w1, c1) := o in
  let '(w2, c2) := k w1 in
  (w2, (c1 ++ c2)%list).

Definition quiet (w : World) : Outcome := (w, []).

(** ** App.tsx: speech output *)

(** [speechSynthesis.cancel()]: the queue is emptied and the utterance being
    spoken stops; each removed utterance still owes its last callback. *)
Definition cancel (b : Browser) : Browser :=
  setSynthDropped
    (synthDropped b + synthQueued b + (if synthSpeaking b then 1 else 0))
    (setSynthSpeaking false (setSynthQueued 0 b)).

(** [speechSynthesis.speak(utterance)]. *)
Definition speak (b : Browser) : Browser :=
  setSynthQueued (S (synthQueued b)) b.

(** [speakText], lines 71-90. *)
Definition speakText (env : Env) (text : string) (w : World) : Outcome :=
  if negb (hasSpeechSynthesis env) then
    quiet (on_app (setError (Some "Text-to-Speech not supported in this browser.")) w)
  else
    and_then
      (if synthSpeaking (browser w)
       then (on_browser cancel w, [synth_cancel])
       else quiet w)
      (fun w1 => (on_browser speak w1, [synth_speak text])).

(** [utterance.onstart], [utterance.onend] and [utterance.onerror]. *)
Definition utterance_onstart (w : World) : World :=
  on_app (setIsAISpeaking true) w.
Definition utterance_onend (w : World) : World :=
  on_app (setIsAISpeaking false) w.
Definition utterance_onerror (err : string) (w : World) : World :=
  on_app (setIsAISpeaking false)
    (on_app (setError (Some ("Text-to-speech error: " ++ err))) w).

(** ** App.tsx: initialization and the start button *)

Definition initialMessageText : string :=
  "Hello! I'm your AI English practice partner. How are you doing today?".

(** The mount effect with [initializeChat], lines 43-69. *)
Definition mount_effect (env : Env) (o : geminiService.CreateOutcome) (now : N)
    (w : World) : Outcome :=
  if negb (API_KEY env) then
    quiet
      (on_app
         (fun a =>
            setIsInitialized false
              (setApiKeyMissing true
                 (setError
                    (Some "Critical Error: API_KEY is not configured. The application cannot function.")
                    a)))
         w)
  else
    let w0 := on_app (setApiKeyMissing false) w in
    match geminiService.createChatSession env o with
    | Returned newChat =>
        (on_app
           (fun a =>
              setIsInitialized true
                (setMessages [mkMessage (toString now) initialMessageText AI now]
                   (setChat (Some newChat) a)))
           w0,
         [chats_create])
    | Thrown m =>
        (on_app
           (fun a =>
              setIsInitialized false
                (setError
                   (Some
                      ("Initialization failed: " ++ or_else m "Unknown error"
                       ++ ". Please ensure your API key is valid and check network connection."))
                   a))
           w0,
         [chats_create])
    end.

(** [handleStartConversation], lines 92-98. *)
Definition handleStartConversation (env : Env) (w : World) : Outcome :=
  and_then
    (match messages (app w) with
     | m :: _ =>
         if Sender_eqb (sender m) AI && negb (conversationStarted (app w))
         then speakText env (text m) w
         else quiet w
     | [] => quiet w
     end)
    (fun w1 => quiet (on_app (fun a => setError None (setConversationStarted true a)) w1)).

(** ** App.tsx: sending a transcript *)

Definition fallbackMessage : string :=
  "Sorry, I encountered an issue. Could you please try that again?".

(** The two statements after the [if] of [processAndSendTranscript],
    lines 122-123. *)
Definition reset_transcripts (w : World) : World :=
  on_app (fun a => setInterimTranscript "" (setUserTranscriptRef "" a)) w.

(** [processAndSendTranscript], lines 101-108, up to its [await]; [chat] is
    the session the callback closed over.  [sendMessage] is reached only
    when [getAIChatResponse] passes its credential check. *)
Definition processAndSendTranscript (env : Env) (chat : option Chat)
    (transcript : string) (now : N) (w : World) : Outcome :=
  let trimmedTranscript := trim transcript in
  match truthy trimmedTranscript, chat with
  | true, Some c =>
      (on_browser (fun b => setBackendPending (S (backendPending b)) b)
         (on_app
            (fun a =>
               setIsLoadingAI true
                 (appendMessage (mkMessage (toString now) trimmedTranscript USER now) a))
            w),
       if API_KEY env then [sendMessage c trimmedTranscript] else [])
  | _, _ => quiet (reset_transcripts w)
  end.

(** [processAndSendTranscript], lines 108-123, from the point where the
    awaited promise settles. *)
Definition processAndSendTranscript_settled (env : Env)
    (o : geminiService.SendOutcome) (now : N) (w : World) : Outcome :=
  and_then
    (match geminiService.getAIChatResponse env o with
     | Returned aiResponseText =>
         speakText env aiResponseText
           (on_app (appendMessage (mkMessage (toString (now + 1)) aiResponseText AI now)) w)
     | Thrown m =>
         let errorMessage := "Error getting AI response: " ++ or_else m "Unknown error" in
         speakText env fallbackMessage
           (on_app
              (fun a =>
                 appendMessage (mkMessage (toString (now + 1)) fallbackMessage AI now)
                   (setError (Some errorMessage) a))
              w)
     end)
    (fun w1 => quiet (reset_transcripts (on_app (setIsLoadingAI false) w1))).

(** ** App.tsx: speech input *)

(** The [for] loop of [recognition.onresult], lines 134-141, over the
    results from [resultIndex] on. *)
Fixpoint onresult_loop (rs : list SpeechRecognitionResult)
    (currentInterim currentFinal : string) : string * string :=
  match rs with
  | [] => (currentInterim, currentFinal)
  | r :: rest =>
      let transcriptPart := transcript r in
      if isFinal r
      then onresult_loop rest currentInterim (currentFinal ++ (transcriptPart ++ " "))
      else onresult_loop rest (currentInterim ++ transcriptPart) currentFinal
  end.

(** [recognition.onresult], lines 130-144. *)
Definition onresult (event : SpeechRecognitionEvent) (w : World) : World :=
  let '(currentInterim, currentFinal) :=
    onresult_loop (skipn (resultIndex event) (results event)) ""
      (userTranscriptRef (app w)) in
  on_app (fun a => setInterimTranscript currentInterim (setUserTranscriptRef currentFinal a)) w.

(** [recognition.onerror], lines 146-160. *)
Definition onerror (code : SpeechRecognitionErrorCode) (w : World) : World :=
  let message :=
    match code with
    | no_speech => "I didn't hear anything. Please try speaking again."
    | audio_capture => "Audio capture error. Please check your microphone."
    | not_allowed =>
        "Microphone access was denied. Please enable microphone permissions in your browser settings."
    | _ => "Speech recognition error: " ++ error_code_string code
    end in
  on_app
    (fun a =>
       setInterimTranscript ""
         (setUserTranscriptRef "" (setIsRecording false (setError (Some message) a))))
    w.

(** [recognition.onend], lines 162-167, as closed over by [cl]. *)
Definition onend (env : Env) (cl : RecClosure) (now : N) (w : World) : Outcome :=
  if cl_isRecording cl then
    let w1 := on_app (setIsRecording false) w in
    processAndSendTranscript env (cl_chat cl) (userTranscriptRef (app w1)) now w1
  else quiet w.

(** The effect of lines 127-169: it returns early unless a recognizer exists
    and [isRecording] holds, and otherwise assigns the three handlers.  The
    handlers of an earlier render stay on the object when it returns early.
    React runs it when [isRecording] or [chat] has changed; here it runs
    after every event, which is the same, as assigning again the closure of
    unchanged values changes nothing. *)
Definition recognition_effect (env : Env) (w : World) : World :=
  if negb (hasRecognition env) || negb (isRecording (app w)) then w
  else
    on_browser
      (setRecHandlers (Some (mkClosure (isRecording (app w)) (chat (app w)))))
      w.

(** ** App.tsx: the microphone toggle *)

(** [handleToggleRecording], lines 172-189, up to its [await]. *)
Definition handleToggleRecording (env : Env) (w : World) : Outcome :=
  let a := app w in
  if apiKeyMissing a || negb (isInitialized a) || negb (hasRecognition env)
     || negb (conversationStarted a)
  then
    let w1 :=
      if negb (hasRecognition env)
      then on_app (setError (Some "Speech recognition is not available in your browser.")) w
      else w in
    let w2 :=
      if negb (conversationStarted a)
      then on_app (setError (Some "Please start the conversation first.")) w1
      else w1 in
    quiet w2
  else
    and_then
      (if isAISpeaking a
       then (on_app (setIsAISpeaking false) (on_browser cancel w), [synth_cancel])
       else quiet w)
      (fun w1 =>
         if isRecording a
         then (on_app (setIsRecording false) w1, [recognition_stop])
         else (on_browser (fun b => setGumPending (S (gumPending b)) b) w1, [getUserMedia])).

(** [handleToggleRecording], lines 190-194 and 195-203, once [getUserMedia]
    has resolved.  [recognition.start()] throws an [InvalidStateError] on a
    recognizer that is still active, which lands in the [catch]; only a
    start that is accepted is listed as a call. *)
Definition handleToggleRecording_granted (w : World) : Outcome :=
  let w1 := reset_transcripts w in
  if recActive (browser w1) then
    quiet
      (on_app
         (fun a =>
            setIsRecording false
              (setError (Some "Could not start recording. Please check microphone.") a))
         w1)
  else
    (on_app (fun a => setError None (setIsRecording true a))
       (on_browser (setRecActive true) w1),
     [recognition_start]).

(** [handleToggleRecording], lines 195-203, once [getUserMedia] has rejected
    with an error of the given [name]. *)
Definition handleToggleRecording_denied (name : string) (w : World) : Outcome :=
  let message :=
    if (name =? "NotAllowedError") || (name =? "PermissionDeniedError")
    then "Microphone access denied. Please enable microphone permissions in your browser settings."
    else "Could not start recording. Please check microphone." in
  quiet (on_app (fun a => setIsRecording false (setError (Some message) a)) w).

(** ** App.tsx: what is rendered *)

(** The controls of the main view, lines 219-303: the error banner, the
    initializing spinner, the message bubbles, the start button (with its
    [disabled]) when rendered, and the [disabled] of the microphone button,
    with [userTranscriptRef.current] read as it is when the event arrives.
    On the page the attribute keeps the value of the last render, and a
    write to the ref alone (line 142, a result with final segments only)
    does not render again: there the page's button is still disabled while
    this one is not.  The two agree whenever the last event has changed a
    state cell. *)
Record MainView : Type := mkMain {
  banner : option string;
  initializing : bool;
  bubbles : list Message;
  startButton : option bool;
  micDisabled : bool
}.

Inductive View : Type :=
  | ConfigurationError (message : option string)
  | Main (v : MainView).

Definition render (w : World) : View :=
  let a := app w in
  if apiKeyMissing a then ConfigurationError (error a)
  else
    Main
      (mkMain
         (error a)
         (negb (isInitialized a) && negb (apiKeyMissing a))
         (if isInitialized a then messages a else [])
         (if isInitialized a && negb (conversationStarted a)
             && (0 <? length (messages a))%nat
          then Some (isAISpeaking a) else None)
         (negb (isInitialized a) || isLoadingAI a || apiKeyMissing a
          || negb (conversationStarted a)
          || (isRecording a && negb (truthy (interimTranscript a))
              && negb (truthy (userTranscriptRef a))))).

(** ** The event loop *)

Inductive Event : Type :=
  | Mount (o : geminiService.CreateOutcome) (now : N)
  | ClickStart
  | ClickMic
  | GetUserMediaResolved
  | GetUserMediaRejected (name : string)
  | RecognitionResult (event : SpeechRecognitionEvent)
  | RecognitionError (code : SpeechRecognitionErrorCode)
  | RecognitionEnd (now : N)
  | BackendSettled (o : geminiService.SendOutcome) (now : N)
  | UtteranceStart
  | UtteranceEnd
  | UtteranceError (err : string)
  | DroppedUtteranceEnd
  | DroppedUtteranceError (err : string).

(** One event.  A click reaches its handler only through a button that is
    rendered and not disabled; a callback fires only when the browser owes
    it.  An event that cannot happen leaves everything as it is. *)
Definition dispatch (env : Env) (w : World) (ev : Event) : Outcome :=
  let b := browser w in
  match ev with
  | Mount o now =>
      if mounted b then quiet w
      else mount_effect env o now (on_browser (setMounted true) w)
  | ClickStart =>
      match render w with
      | Main v =>
          match startButton v with
          | Some false => handleStartConversation env w
          | _ => quiet w
          end
      | ConfigurationError _ => quiet w
      end
  | ClickMic =>
      match render w with
      | Main v => if micDisabled v then quiet w else handleToggleRecording env w
      | ConfigurationError _ => quiet w
      end
  | GetUserMediaResolved =>
      match gumPending b with
      | O => quiet w
      | S n => handleToggleRecording_granted (on_browser (setGumPending n) w)
      end
  | GetUserMediaRejected name =>
      match gumPending b with
      | O => quiet w
      | S n => handleToggleRecording_denied name (on_browser (setGumPending n) w)
      end
  | RecognitionResult event =>
      match recActive b, recHandlers b with
      | true, Some _ => quiet (onresult event w)
      | _, _ => quiet w
      end
  | RecognitionError code =>
      match recActive b, recHandlers b with
      | true, Some _ => quiet (onerror code w)
      | _, _ => quiet w
      end
  | RecognitionEnd now =>
      if recActive b then
        let w1 := on_browser (setRecActive false) w in
        match recHandlers b with
        | Some cl => onend env cl now w1
        | None => quiet w1
        end
      else quiet w
  | BackendSettled o now =>
      match backendPending b with
      | O => quiet w
      | S n => processAndSendTranscript_settled env o now (on_browser (setBackendPending n) w)
      end
  | UtteranceStart =>
      match synthSpeaking b, synthQueued b with
      | false, S n =>
          quiet
            (utterance_onstart
               (on_browser (fun b => setSynthSpeaking true (setSynthQueued n b)) w))
      | _, _ => quiet w
      end
  | UtteranceEnd =>
      if synthSpeaking b
      then quiet (utterance_onend (on_browser (setSynthSpeaking false) w))
      else quiet w
  | UtteranceError err =>
      match synthSpeaking b, synthQueued b with
      | true, _ => quiet (utterance_onerror err (on_browser (setSynthSpeaking false) w))
      | false, S n => quiet (utterance_onerror err (on_browser (setSynthQueued n) w))
      | false, O => quiet w
      end
  | DroppedUtteranceEnd =>
      match synthDropped b with
      | O => quiet w
      | S n => quiet (utterance_onend (on_browser (setSynthDropped n) w))
      end
  | DroppedUtteranceError err =>
      match synthDropped b with
      | O => quiet w
      | S n => quiet (utterance_onerror err (on_browser (setSynthDropped n) w))
      end
  end.

(** An event followed by the re-render and its effect. *)
Definition step (env : Env) (w : World) (ev : Event) : Outcome :=
  let '(w1, calls) := dispatch env w ev in
  (recognition_effect env w1, calls).

Fixpoint run (env : Env) (w : World) (evs : list Event) : Outcome :=
  match evs with
  | [] => quiet w
  | ev :: rest => and_then (step env w ev) (fun w1 => run env w1 rest)
  end.

Definition state_after (env : Env) (evs : list Event) : World :=
  fst (run env initial evs).

(** ** Notions the statements below use *)

(** The finalized segments an event delivers and those of a whole session,
    in arrival order. *)
Definition finalized_of (event : SpeechRecognitionEvent) : list string :=
  map transcript (filter isFinal (skipn (resultIndex event) (results event))).

Definition finalized (events : list SpeechRecognitionEvent) : list string :=
  flat_map finalized_of events.

(** Segments put one after the other, each followed by one space. *)
Fixpoint spaced (segments : list string) : string :=
  match segments with
  | [] => ""
  | t :: rest => t ++ " " ++ spaced rest
  end.

Definition speak_calls (calls : list Call) : list string :=
  flat_map (fun c => match c with synth_speak t => [t] | _ => [] end) calls.

Definition send_calls (calls : list Call) : list string :=
  flat_map (fun c => match c with sendMessage _ t => [t] | _ => [] end) calls.

(** The banner a failed backend call sets, line 113. *)
Definition backend_error_banner (m : string) : string :=
  "Error getting AI response: " ++ or_else m "Unknown error".

(** A recording is on: the recognizer is active and carries the handlers of
    a render in which [isRecording] held and the session was [c]. *)
Definition recording_with (c : Chat) (w : World) : Prop :=
  recActive (browser w) = true
  /\ recHandlers (browser w) = Some (mkClosure true (Some c))
  /\ chat (app w) = Some c.

(** The events of one recording session: its result events, then its end. *)
Definition session_events (events : list SpeechRecognitionEvent) (now : N) : list Event :=
  (map RecognitionResult events ++ [RecognitionEnd now])%list.

(** Nothing happens before the mount effect has run. *)
Definition nothing_before_mount (w : World) : Prop :=
  mounted (browser w) = false -> w = initial.

Definition missing_credential_banner : string :=
  "Critical Error: API_KEY is not configured. The application cannot function.".

(** The state the mount effect leaves when the credential is absent. *)
Definition halted : World :=
  mkWorld
    (mkApp None [] false "" "" false false (Some missing_credential_banner)
       false true false)
    (mkBrowser true None false 0 0 0 false 0).

End App.

(** ** Loading the page *)

Module Loading.

Import JsString App.

(** [process.env.API_KEY]: absent, or a string, which may be empty. *)
Inductive Credential : Type :=
  | Absent
  | Present (value : string).

(** [!!API_KEY]. *)
Definition is_set (c : Credential) : bool :=
  match c with
  | Absent => false
  | Present value => truthy value
  end.

(** [new GoogleGenAI({ apiKey: API_KEY! })], geminiService.ts line 13.  The
    constructor belongs to the library; as the comment on line 12 says, it
    throws when the key is undefined.  [None] is that throw. *)
Definition new_GoogleGenAI (c : Credential) : option unit :=
  match c with
  | Absent => None
  | Present _ => Some tt
  end.

(** The top level of geminiService.ts, lines 4-13, which App.tsx imports at
    line 5.  Nothing catches a throw there: [App] is then never defined and
    never rendered ([None]).  Otherwise the component is rendered, with the
    environment it sees and the state of its first render. *)
Definition load (c : Credential) (recognizer synthesis : bool) :
    option (Env * World) :=
  match new_GoogleGenAI c with
  | None => None
  | Some _ => Some (mkEnv (is_set c) recognizer synthesis, initial)
  end.

(** What the page shows once it is loaded and its mount effect has run, if
    it shows anything. *)
Definition first_view (c : Credential) (recognizer synthesis : bool)
    (o : geminiService.CreateOutcome) (now : N) : option View :=
  match load c recognizer synthesis with
  | None => None
  | Some (env, w) => Some (render (fst (step env w (Mount o now))))
  end.

End Loading.

(** ** Sessions used as instances *)

Module Scenario.

Import App.

Definition env : Env := mkEnv true true true.

(** A page that has a recognizer and no speech synthesis. *)
Definition env_mute : Env := mkEnv true true false.

Definition session : Chat := ChatHandle 0.

Definition final (t : string) : SpeechRecognitionEvent :=
  mkResultEvent 0 [mkResult t true].

Definition partial (t : string) : SpeechRecognitionEvent :=
  mkResultEvent 0 [mkResult t false].

(** The page is loaded and the user has pressed the start button. *)
Definition started : list Event :=
  [Mount (geminiService.CreateOk session) 1000; ClickStart].

(** The greeting has been played to its end. *)
Definition greeted : list Event :=
  (started ++ [UtteranceStart; UtteranceEnd])%list.

(** The microphone is on and nothing has been heard yet. *)
Definition listening : list Event :=
  (greeted ++ [ClickMic; GetUserMediaResolved])%list.

(** One utterance, [hi], has been recorded and sent at clock reading 5000. *)
Definition awaiting_reply : list Event :=
  (listening
   ++ [RecognitionResult (partial "h"); RecognitionResult (final "hi");
       RecognitionEnd 5000])%list.

(** The microphone is pressed while the greeting is queued and has not begun;
    the greeting begins while [getUserMedia] is awaited. *)
Definition greeting_over_capture : list Event :=
  (started ++ [ClickMic; UtteranceStart; GetUserMediaResolved])%list.

(** The reply to [hi] arrives at clock reading 5400; the next recording ends
    when the clock reads 5401. *)
Definition reply_then_next_turn : list Event :=
  (awaiting_reply
   ++ [BackendSettled (geminiService.SendOk "Hello") 5400;
       ClickMic; GetUserMediaResolved;
       RecognitionResult (final "ok"); RecognitionEnd 5401])%list.

(** The microphone is pressed twice while a recording is on: the first
    press stops it, the second asks for the microphone again and is still
    awaiting [getUserMedia] when the stopped recording ends and is sent; the
    second recording then starts while the first request is pending. *)
Definition double_press_recording : list Event :=
  (listening
   ++ [RecognitionResult (partial "a"); ClickMic; ClickMic;
       RecognitionResult (final "a"); RecognitionEnd 5000;
       GetUserMediaResolved])%list.

(** The second recording hears [b] and ends before the first request has
    settled. *)
Definition double_press : list Event :=
  (double_press_recording
   ++ [RecognitionResult (final "b"); RecognitionEnd 6000])%list.

(** The double press again, with the reply to the first request arriving at
    clock reading 5400, just before the second recording delivers its
    result and ends at 5401. *)
Definition double_press_reply : list Event :=
  (listening
   ++ [RecognitionResult (partial "a"); ClickMic; ClickMic;
       RecognitionResult (final "a"); RecognitionEnd 5000;
       GetUserMediaResolved;
       BackendSettled (geminiService.SendOk "Hello") 5400;
       RecognitionResult (final "b"); RecognitionEnd 5401])%list.

End Scenario.

Import JsString App.

(** ** Notions for the statements about the whole component *)

(** The texts of the user Turns and of the agent Turns of a log, in order. *)
Definition user_texts (log : list Message) : list string :=
  map text (filter (fun m => Sender_eqb (sender m) USER) log).

Definition agent_texts (log : list Message) : list string :=
  map text (filter (fun m => Sender_eqb (sender m) AI) log).

(** Segments put one after the other. *)
Definition joined (segments : list string) : string :=
  fold_right append "" segments.

(** The partial segments an event delivers, joined: what line 139 builds. *)
Definition partial_of (event : SpeechRecognitionEvent) : string :=
  joined
    (map transcript
       (filter (fun r => negb (isFinal r))
          (skipn (resultIndex event) (results event)))).

(** A text as [processAndSendTranscript] lets it through: not empty, and
    unchanged by [trim]. *)
Definition trimmed_text (t : string) : Prop :=
  truthy t = true /\ trim t = t.

(** The banner of a failed initialization, line 63. *)
Definition initialization_banner (m : string) : string :=
  "Initialization failed: " ++ or_else m "Unknown error"
  ++ ". Please ensure your API key is valid and check network connection.".

(** The state the mount effect leaves when creating the session throws. *)
Definition stalled (m : string) : World :=
  mkWorld
    (mkApp None [] false "" "" false false (Some (initialization_banner m))
       false false false)
    (mkBrowser true None false 0 0 0 false 0).

(** The reading of [Date.now()] an event carries, if it reads the clock. *)
Definition clock_of (ev : Event) : option N :=
  match ev with
  | Mount _ now | RecognitionEnd now | BackendSettled _ now => Some now
  | _ => None
  end.

(** Every event that reads the clock reads at least [bound], and at least
    two milliseconds more than the clock-reading event before it. *)
Fixpoint steady (bound : N) (evs : list Event) : bool :=
  match evs with
  | [] => true
  | ev :: rest =>
      match clock_of ev with
      | Some t => (bound <=? t)%N && steady (t + 2) rest
      | None => steady bound rest
      end
  end.

(** The calls that touch the microphone or the recognizer. *)
Definition capture_call (c : Call) : bool :=
  match c with
  | getUserMedia | recognition_start | recognition_stop => true
  | _ => false
  end.

(** The calls on [speechSynthesis]. *)
Definition synth_call (c : Call) : bool :=
  match c with
  | synth_speak _ | synth_cancel => true
  | _ => false
  end.

(** Before the start button has been used the page is at rest: nothing is
    recorded, awaited, queued or spoken, and the log holds at most the
    greeting. *)
Definition at_rest_until_started (w : World) : Prop :=
  conversationStarted (app w) = false ->
  isRecording (app w) = false
  /\ isAISpeaking (app w) = false
  /\ recActive (browser w) = false
  /\ gumPending (browser w) = 0
  /\ backendPending (browser w) = 0
  /\ synthQueued (browser w) = 0
  /\ synthSpeaking (browser w) = false
  /\ synthDropped (browser w) = 0
  /\ agent_texts (messages (app w))
     = (if isInitialized (app w) then [initialMessageText] else [])
  /\ length (messages (app w)) = (if isInitialized (app w) then 1 else 0).

(** A page without a recognizer never leaves this state. *)
Definition never_capturing (w : World) : Prop :=
  isRecording (app w) = false
  /\ recActive (browser w) = false
  /\ gumPending (browser w) = 0
  /\ backendPending (browser w) = 0.

(** A page without speech synthesis never leaves this state. *)
Definition never_speaking (w : World) : Prop :=
  isAISpeaking (app w) = false
  /\ synthQueued (browser w) = 0
  /\ synthSpeaking (browser w) = false
  /\ synthDropped (browser w) = 0.

(** A session exists only with the credential, in the state and in the
    closure on the recognizer. *)
Definition session_needs_key (env : Env) (w : World) : Prop :=
  API_KEY env = false ->
  chat (app w) = None
  /\ match recHandlers (browser w) with
     | Some cl => cl_chat cl = None
     | None => True
     end.

(** The log is empty until the session is created and starts with the
    greeting from then on. *)
Definition greeting_first (w : World) : Prop :=
  match messages (app w) with
  | [] => isInitialized (app w) = false
  | m :: _ =>
      isInitialized (app w) = true
      /\ sender m = AI /\ text m = initialMessageText
  end.

(** * Case analysis on one event *)

(** Splits on every test a handler makes. *)
Ltac split_tests :=
  repeat
    (simpl in *;
     match goal with
     | |- context [match ?x with _ => _ end] =>
         lazymatch x with
         | context [match _ with _ => _ end] => fail
         | _ => destruct x eqn:?
         end
     end).

Ltac open_step :=
  unfold step, dispatch, recognition_effect, render,
    handleStartConversation, handleToggleRecording,
    handleToggleRecording_granted, handleToggleRecording_denied,
    processAndSendTranscript_settled, onend, processAndSendTranscript,
    onresult, onerror, mount_effect, speakText, and_then, quiet,
    utterance_onstart, utterance_onend, utterance_onerror, reset_transcripts,
    geminiService.createChatSession.

(** Closes a case whose tests contradict each other. *)
Ltac contradictory :=
  exfalso;
  repeat
    match goal with
    | H : (_ || _) = false |- _ => apply orb_false_iff in H; destruct H
    | H : (_ && _) = true |- _ => apply andb_true_iff in H; destruct H
    | H : negb _ = false |- _ => apply negb_false_iff in H
    | H : negb _ = true |- _ => apply negb_true_iff in H
    end;
  congruence.

(** * Strings *)

Lemma append_assoc (a b c : string) : (a ++ b) ++ c = a ++ (b ++ c).
Proof.
  induction a as [|x a IH]; simpl; [reflexivity | now rewrite IH].
Qed.

Lemma append_empty_r (a : string) : a ++ "" = a.
Proof.
  induction a as [|x a IH]; simpl; [reflexivity | now rewrite IH].
Qed.

Lemma spaced_app (xs ys : list string) :
  spaced (xs ++ ys) = spaced xs ++ spaced ys.
Proof.
  induction xs as [|x xs IH]; simpl; [reflexivity |].
  now rewrite IH, !append_assoc.
Qed.

Lemma trimStart_all_white_space (s : string) :
  all_white_space s = true -> trimStart s = "".
Proof.
  unfold all_white_space.
  induction s as [|c s IH]; simpl; [reflexivity |].
  intros H. apply andb_true_iff in H as [Hc Hs].
  rewrite Hc. auto.
Qed.

Lemma trimEnd_empty_inv (s : string) :
  trimEnd s = "" -> all_white_space s = true.
Proof.
  unfold all_white_space.
  induction s as [|c s IH]; simpl; [reflexivity |].
  destruct (trimEnd s) eqn:E; [| discriminate].
  destruct (is_white_space c); [| discriminate].
  intros _. simpl. now apply IH.
Qed.

Lemma trimStart_white_space_inv (s : string) :
  all_white_space (trimStart s) = true -> all_white_space s = true.
Proof.
  unfold all_white_space.
  induction s as [|c s IH]; simpl; [reflexivity |].
  destruct (is_white_space c) eqn:E; simpl; [assumption |].
  rewrite E. discriminate.
Qed.

(** [trim] leaves nothing exactly of the strings made of white space. *)
Lemma trim_empty_iff (s : string) :
  trim s = "" <-> all_white_space s = true.
Proof.
  unfold trim. split.
  - intros H. apply trimStart_white_space_inv, trimEnd_empty_inv, H.
  - intros H. now rewrite trimStart_all_white_space.
Qed.


(** * Running event lists *)

Lemma run_app (env : Env) (w : World) (evs1 evs2 : list Event) :
  run env w (evs1 ++ evs2)
  = and_then (run env w evs1) (fun w1 => run env w1 evs2).
Proof.
  revert w. induction evs1 as [|ev evs1 IH]; intros w; simpl.
  - unfold and_then, quiet. now destruct (run env w evs2).
  - unfold and_then. destruct (step env w ev) as [w1 c1].
    rewrite IH. unfold and_then.
    destruct (run env w1 evs1) as [w2 c2].
    destruct (run env w2 evs2) as [w3 c3].
    now rewrite app_assoc.
Qed.

Lemma run_one (env : Env) (w : World) (ev : Event) :
  run env w [ev] = step env w ev.
Proof.
  simpl. unfold and_then, quiet.
  destruct (step env w ev) as [w1 c1]. now rewrite app_nil_r.
Qed.

(** * The transcript accumulator (lines 130-144) *)

Section Accumulator.

Variable env : Env.

(** The loop appends every final segment and a space to the running final
    text, whatever the partial segments around it. *)
Lemma onresult_loop_final (rs : list SpeechRecognitionResult) (i f : string) :
  snd (onresult_loop rs i f) = f ++ spaced (map transcript (filter isFinal rs)).
Proof.
  revert i f. induction rs as [|r rs IH]; intros i f; simpl.
  - now rewrite append_empty_r.
  - destruct (isFinal r); simpl; rewrite IH; [| reflexivity].
    now rewrite !append_assoc.
Qed.

Lemma onresult_ref (event : SpeechRecognitionEvent) (w : World) :
  userTranscriptRef (app (onresult event w))
  = userTranscriptRef (app w) ++ spaced (finalized_of event).
Proof.
  unfold onresult, finalized_of.
  pose proof (onresult_loop_final (skipn (resultIndex event) (results event)) ""
                (userTranscriptRef (app w))) as H.
  destruct (onresult_loop _ _ _) as [i f]. simpl in *. exact H.
Qed.

Lemma onresult_other_cells (event : SpeechRecognitionEvent) (w : World) :
  let w' := onresult event w in
  browser w' = browser w
  /\ chat (app w') = chat (app w)
  /\ messages (app w') = messages (app w)
  /\ isRecording (app w') = isRecording (app w).
Proof.
  unfold onresult. destruct (onresult_loop _ _ _) as [i f]. simpl. auto.
Qed.

(** The effect re-assigns to a recording recognizer the closure it has. *)
Lemma recognition_effect_recording (c : Chat) (w : World) :
  recording_with c w ->
  browser (recognition_effect env w) = browser w.
Proof.
  intros (Ha & Hh & Hc). unfold recognition_effect.
  destruct (negb (hasRecognition env) || negb (isRecording (app w))) eqn:E;
    [reflexivity |].
  apply orb_false_iff in E as [_ E]. apply negb_false_iff in E.
  destruct w as [a b]. simpl in *. rewrite E, Hc.
  destruct b; simpl in *. now subst.
Qed.

Lemma recognition_effect_app (w : World) :
  app (recognition_effect env w) = app w.
Proof.
  unfold recognition_effect.
  now destruct (negb (hasRecognition env) || negb (isRecording (app w))).
Qed.

(** One result event during a recording. *)
Lemma result_step (c : Chat) (w : World) (event : SpeechRecognitionEvent) :
  recording_with c w ->
  let '(w', calls) := step env w (RecognitionResult event) in
  recording_with c w'
  /\ calls = []
  /\ messages (app w') = messages (app w)
  /\ userTranscriptRef (app w')
     = userTranscriptRef (app w) ++ spaced (finalized_of event).
Proof.
  intros Hrec. pose proof Hrec as (Ha & Hh & Hc).
  unfold step, dispatch. rewrite Ha, Hh. unfold quiet.
  destruct (onresult_other_cells event w) as (Hb & Hchat & Hmsg & _).
  assert (Hrec' : recording_with c (onresult event w)).
  { unfold recording_with. rewrite Hb, Hchat. auto. }
  cbv beta iota.
  split; [| split; [| split]].
  - unfold recording_with.
    rewrite (recognition_effect_recording c _ Hrec'), recognition_effect_app.
    exact Hrec'.
  - reflexivity.
  - rewrite recognition_effect_app. exact Hmsg.
  - rewrite recognition_effect_app. apply onresult_ref.
Qed.

(** Any number of result events during a recording. *)
Lemma results_run (c : Chat) (events : list SpeechRecognitionEvent) (w : World) :
  recording_with c w ->
  let '(w', calls) := run env w (map RecognitionResult events) in
  recording_with c w'
  /\ calls = []
  /\ messages (app w') = messages (app w)
  /\ userTranscriptRef (app w')
     = userTranscriptRef (app w) ++ spaced (finalized events).
Proof.
  revert w. induction events as [|event events IH]; intros w Hrec; simpl.
  - now rewrite append_empty_r.
  - pose proof (result_step c w event Hrec) as H1.
    unfold and_then. destruct (step env w (RecognitionResult event)) as [w1 c1].
    destruct H1 as (Hrec1 & Hc1 & Hm1 & Hr1).
    specialize (IH w1 Hrec1).
    destruct (run env w1 (map RecognitionResult events)) as [w2 c2].
    destruct IH as (Hrec2 & Hc2 & Hm2 & Hr2).
    subst c1 c2. split; [exact Hrec2 | split; [reflexivity | split]].
    + congruence.
    + unfold finalized in *. simpl. rewrite Hr2, Hr1, spaced_app.
      now rewrite append_assoc.
Qed.

(** The end of a recording: the handler on the recognizer sends the trimmed
    accumulator when something is left of it. *)
Lemma end_step (c : Chat) (w : World) (now : N) :
  API_KEY env = true ->
  recording_with c w ->
  let sent := trim (userTranscriptRef (app w)) in
  let '(w', calls) := step env w (RecognitionEnd now) in
  calls = (if truthy sent then [sendMessage c sent] else [])
  /\ messages (app w')
     = (messages (app w)
        ++ (if truthy sent then [mkMessage (toString now) sent USER now] else []))%list.
Proof.
  intros Hkey (Ha & Hh & Hc). unfold step, dispatch. rewrite Ha, Hh.
  unfold onend, processAndSendTranscript. simpl.
  destruct (truthy (trim (userTranscriptRef (app w)))) eqn:E; simpl.
  - rewrite Hkey. rewrite recognition_effect_app. simpl. auto.
  - rewrite recognition_effect_app. simpl. now rewrite app_nil_r.
Qed.

End Accumulator.

(** * What a recording session sends *)

(** C1, as amended.  For every sequence of result events delivered during
    one recording session, the text passed to the backend when the recording
    ends is the white-space-trimmed concatenation of all finalized segments
    in arrival order, each followed by one space; it is also the text of the
    user Turn that is logged.  Partial segments do not occur in it.  Nothing
    is sent when nothing is left after trimming. *)
Theorem session_sends_spaced_finals
    (env : Env) (c : Chat) (w : World)
    (events : list SpeechRecognitionEvent) (now : N) :
  API_KEY env = true ->
  recording_with c w ->
  userTranscriptRef (app w) = "" ->
  let sent := trim (spaced (finalized events)) in
  let '(w', calls) := run env w (session_events events now) in
  calls = (if truthy sent then [sendMessage c sent] else [])
  /\ messages (app w')
     = (messages (app w)
        ++ (if truthy sent then [mkMessage (toString now) sent USER now] else []))%list.
Proof.
  intros Hkey Hrec Href. unfold session_events.
  rewrite run_app. unfold and_then.
  pose proof (results_run env c events w Hrec) as H1.
  destruct (run env w (map RecognitionResult events)) as [w1 c1].
  destruct H1 as (Hrec1 & Hc1 & Hm1 & Hr1). rewrite run_one.
  pose proof (end_step env c w1 now Hkey Hrec1) as H2.
  destruct (step env w1 (RecognitionEnd now)) as [w2 c2].
  rewrite Hr1, Href in H2. simpl in H2. rewrite Hm1 in H2.
  subst c1. simpl. exact H2.
Qed.

Lemma session_sends_spaced_finals_witness :
  let w := state_after Scenario.env Scenario.listening in
  let events :=
    [Scenario.partial "Hello"; Scenario.partial "Hello, how";
     Scenario.final "Hello, how are you?"] in
  let '(w', calls) := run Scenario.env w (session_events events 5000) in
  calls = [sendMessage Scenario.session "Hello, how are you?"]
  /\ messages (app w')
     = (messages (app w) ++ [mkMessage "5000" "Hello, how are you?" USER 5000])%list.
Proof.
  exact (session_sends_spaced_finals Scenario.env Scenario.session
           (state_after Scenario.env Scenario.listening)
           [Scenario.partial "Hello"; Scenario.partial "Hello, how";
            Scenario.final "Hello, how are you?"] 5000
           eq_refl (conj eq_refl (conj eq_refl eq_refl)) eq_refl).
Defined.

(** C1, as stated, fails on a session with two finalized segments: the
    backend receives [a b], the trimmed concatenation of the segments is
    [ab]. *)
Lemma session_sends_spaced_finals_counterexample :
  let w := state_after Scenario.env Scenario.listening in
  let events := [Scenario.final "a"; Scenario.final "b"] in
  send_calls (snd (run Scenario.env w (session_events events 5000))) = ["a b"]
  /\ trim (String.concat "" (finalized events)) = "ab"
  /\ send_calls (snd (run Scenario.env w (session_events events 5000)))
     <> [trim (String.concat "" (finalized events))].
Proof.
  vm_compute. repeat split; discriminate.
Qed.

(** A press on the microphone button during a recording, whatever it does,
    sends nothing and leaves the log, the accumulator and the handlers on
    the recognizer as they are. *)
Lemma press_step (env : Env) (c : Chat) (w : World) :
  recording_with c w ->
  let '(w', calls) := step env w ClickMic in
  recording_with c w'
  /\ send_calls calls = []
  /\ messages (app w') = messages (app w)
  /\ userTranscriptRef (app w') = userTranscriptRef (app w).
Proof.
  unfold recording_with. intros (Ha & Hh & Hc).
  destruct w as [a b]. destruct a, b. simpl in *. subst.
  destruct env as [k r t]. destruct r, isRecording0;
    open_step; split_tests; repeat split; reflexivity.
Qed.

(** X5.  The same text is sent when the user ends the recording with a press and
    the recognizer delivers its last results and its end after it. *)
Lemma stopped_session_sends_spaced_finals
    (env : Env) (c : Chat) (w : World)
    (before after : list SpeechRecognitionEvent) (now : N) :
  API_KEY env = true ->
  recording_with c w ->
  userTranscriptRef (app w) = "" ->
  let sent := trim (spaced (finalized (before ++ after))) in
  send_calls
    (snd (run env w
            (map RecognitionResult before
             ++ ClickMic :: map RecognitionResult after
             ++ [RecognitionEnd now])))
  = (if truthy sent then [sent] else []).
Proof.
  intros Hkey Hrec Href. simpl.
  rewrite run_app. unfold and_then.
  pose proof (results_run env c before w Hrec) as H1.
  destruct (run env w (map RecognitionResult before)) as [w1 c1].
  destruct H1 as (Hrec1 & Hc1 & _ & Hr1). simpl. unfold and_then.
  pose proof (press_step env c w1 Hrec1) as H2.
  destruct (step env w1 ClickMic) as [w2 c2].
  destruct H2 as (Hrec2 & Hc2 & _ & Hr2).
  rewrite run_app. unfold and_then.
  pose proof (results_run env c after w2 Hrec2) as H3.
  destruct (run env w2 (map RecognitionResult after)) as [w3 c3].
  destruct H3 as (Hrec3 & Hc3 & _ & Hr3). rewrite run_one.
  pose proof (end_step env c w3 now Hkey Hrec3) as H4.
  destruct (step env w3 (RecognitionEnd now)) as [w4 c4].
  destruct H4 as (Hc4 & _). simpl.
  subst c1 c3 c4. simpl. unfold send_calls in *.
  rewrite flat_map_app, Hc2. simpl.
  rewrite Hr3, Hr2, Hr1, Href. simpl.
  unfold finalized. rewrite flat_map_app, spaced_app.
  destruct (truthy _); reflexivity.
Qed.

(** C4.  When a recording ends and its accumulated final transcript is empty
    or made of white space only, so that nothing is left of it after
    trimming, no call is made, the log is as it was, the recording flag is
    cleared without the loading flag being raised, and both transcripts are
    reset to empty. *)
Theorem empty_transcript_returns_to_idle
    (env : Env) (cl : RecClosure) (w : World) (now : N) :
  recActive (browser w) = true ->
  recHandlers (browser w) = Some cl ->
  cl_isRecording cl = true ->
  all_white_space (userTranscriptRef (app w)) = true ->
  let '(w', calls) := step env w (RecognitionEnd now) in
  calls = []
  /\ messages (app w') = messages (app w)
  /\ backendPending (browser w') = backendPending (browser w)
  /\ isRecording (app w') = false
  /\ isLoadingAI (app w') = isLoadingAI (app w)
  /\ isAISpeaking (app w') = isAISpeaking (app w)
  /\ userTranscriptRef (app w') = ""
  /\ interimTranscript (app w') = "".
Proof.
  intros Ha Hh Hcl Hws. apply trim_empty_iff in Hws.
  unfold step, dispatch. rewrite Ha, Hh.
  unfold onend, processAndSendTranscript. rewrite Hcl. simpl.
  rewrite Hws. simpl.
  unfold recognition_effect. simpl. rewrite orb_true_r. simpl.
  repeat split; reflexivity.
Qed.

Lemma empty_transcript_returns_to_idle_witness :
  let w :=
    state_after Scenario.env
      (Scenario.listening ++ [RecognitionResult (Scenario.final " ")]) in
  userTranscriptRef (app w) = "  "
  /\ let '(w', calls) := step Scenario.env w (RecognitionEnd 5000) in
     calls = []
     /\ messages (app w') = messages (app w)
     /\ backendPending (browser w') = backendPending (browser w)
     /\ isRecording (app w') = false
     /\ isLoadingAI (app w') = isLoadingAI (app w)
     /\ isAISpeaking (app w') = isAISpeaking (app w)
     /\ userTranscriptRef (app w') = ""
     /\ interimTranscript (app w') = "".
Proof.
  split; [reflexivity |].
  exact (empty_transcript_returns_to_idle Scenario.env
           (mkClosure true (Some Scenario.session))
           (state_after Scenario.env
              (Scenario.listening ++ [RecognitionResult (Scenario.final " ")]))
           5000 eq_refl eq_refl eq_refl eq_refl).
Defined.

(** * The missing credential *)

Lemma halted_step (env : Env) (ev : Event) : step env halted ev = (halted, []).
Proof.
  destruct env as [k r t].
  destruct ev; destruct r; reflexivity.
Qed.

Lemma halted_run (env : Env) (evs : list Event) : run env halted evs = (halted, []).
Proof.
  induction evs as [|ev evs IH]; simpl; [reflexivity |].
  rewrite halted_step. unfold and_then. now rewrite IH.
Qed.

(** With a credential that is defined and empty the page loads, the mount
    effect makes no call and creates no session, the page renders the
    configuration-error view and nothing else, and whatever events follow,
    the state stays as it is and no call is made. *)
Lemma empty_credential_is_terminal
    (recognizer synthesis : bool) (o : geminiService.CreateOutcome) (now : N) :
  match Loading.load (Loading.Present "") recognizer synthesis with
  | Some (env, w0) =>
      step env w0 (Mount o now) = (halted, [])
      /\ chat (app halted) = None
      /\ render halted = ConfigurationError (Some missing_credential_banner)
      /\ forall evs : list Event, run env halted evs = (halted, [])
  | None => False
  end.
Proof.
  simpl. split; [destruct recognizer; reflexivity |].
  repeat split. apply halted_run.
Qed.

(** C7.  The code at the failing input: with [process.env.API_KEY]
    undefined, the top level of geminiService.ts throws at line 13 while
    App.tsx imports it, so the component is never rendered and the page
    shows no view at all, although the mount effect (lines 43-49) and the
    first branch of the render (lines 207-217) are written to show the
    configuration-error view.  That view is shown only for a credential
    that is defined and empty. *)
Theorem undefined_credential_renders_nothing
    (recognizer synthesis : bool) (o : geminiService.CreateOutcome) (now : N) :
  Loading.is_set Loading.Absent = false
  /\ Loading.load Loading.Absent recognizer synthesis = None
  /\ Loading.first_view Loading.Absent recognizer synthesis o now = None
  /\ Loading.first_view (Loading.Present "") recognizer synthesis o now
     = Some (ConfigurationError (Some missing_credential_banner)).
Proof.
  repeat split. destruct recognizer; reflexivity.
Qed.

(** * The log *)

(** Before the mount effect only the mount effect does anything. *)
Lemma step_initial (env : Env) (ev : Event) :
  (fst (step env initial ev) = initial
   \/ mounted (browser (fst (step env initial ev))) = true)
  /\ exists suffix : list Message,
       messages (app (fst (step env initial ev))) = suffix.
Proof.
  split; [| eexists; reflexivity].
  destruct env as [k r t].
  destruct ev; try (left; destruct r; reflexivity).
  right. destruct k, r, o; reflexivity.
Qed.

(** Once mounted, one event leaves the log as it was or adds Turns at its
    end. *)
Lemma step_mounted (env : Env) (w : World) (ev : Event) :
  mounted (browser w) = true ->
  mounted (browser (fst (step env w ev))) = true
  /\ exists suffix : list Message,
       messages (app (fst (step env w ev))) = (messages (app w) ++ suffix)%list.
Proof.
  intros Hm. destruct w as [a b]. destruct a, b. simpl in Hm. subst.
  destruct ev; open_step; split_tests;
    (split;
     [ reflexivity
     | first
         [ exists []; simpl; now rewrite app_nil_r
         | eexists; simpl; reflexivity ] ]).
Qed.

Lemma step_extends_log (env : Env) (w : World) (ev : Event) :
  nothing_before_mount w ->
  nothing_before_mount (fst (step env w ev))
  /\ exists suffix : list Message,
       messages (app (fst (step env w ev))) = (messages (app w) ++ suffix)%list.
Proof.
  unfold nothing_before_mount. intros Hinit.
  destruct (mounted (browser w)) eqn:Hm.
  - destruct (step_mounted env w ev Hm) as [Hm' Hsuf].
    split; [congruence | exact Hsuf].
  - rewrite (Hinit eq_refl).
    destruct (step_initial env ev) as [[H | H] [suffix Hsuf]].
    + split; [auto | exists suffix; exact Hsuf].
    + split; [congruence | exists suffix; exact Hsuf].
Qed.

Lemma fst_and_then (o : Outcome) (k : World -> Outcome) :
  fst (and_then o k) = fst (k (fst o)).
Proof.
  unfold and_then. destruct o as [w1 c1]. simpl. now destruct (k w1).
Qed.

Lemma run_extends_log (env : Env) (evs : list Event) (w : World) :
  nothing_before_mount w ->
  nothing_before_mount (fst (run env w evs))
  /\ exists suffix : list Message,
       messages (app (fst (run env w evs))) = (messages (app w) ++ suffix)%list.
Proof.
  revert w. induction evs as [|ev evs IH]; intros w Hw; simpl.
  - split; [exact Hw | exists []; now rewrite app_nil_r].
  - rewrite fst_and_then.
    destruct (step_extends_log env w ev Hw) as [Hw1 [s1 Hs1]].
    destruct (IH _ Hw1) as [Hw2 [s2 Hs2]].
    split; [exact Hw2 |].
    exists (s1 ++ s2)%list. now rewrite Hs2, Hs1, app_assoc.
Qed.

Lemma firstn_length_app {A : Type} (l suffix : list A) :
  firstn (length l) (l ++ suffix) = l.
Proof.
  induction l as [|x l IH]; simpl; [reflexivity | now rewrite IH].
Qed.

(** C8.  The log is append-only and its Turns are never changed: whatever
    events have happened and whatever events follow, the later log is the
    earlier log with Turns added at its end, so the earlier log is found
    again, Turn for Turn and in the same order, at the head of the later
    one. *)
Theorem log_is_append_only (env : Env) (evs1 evs2 : list Event) :
  (exists suffix : list Message,
     messages (app (state_after env (evs1 ++ evs2)))
     = (messages (app (state_after env evs1)) ++ suffix)%list)
  /\ firstn (length (messages (app (state_after env evs1))))
       (messages (app (state_after env (evs1 ++ evs2))))
     = messages (app (state_after env evs1)).
Proof.
  assert (Hinit : nothing_before_mount initial) by (intros _; reflexivity).
  destruct (run_extends_log env evs1 initial Hinit) as [H1 _].
  destruct (run_extends_log env evs2 _ H1) as [_ [suffix Hs]].
  assert (Heq : messages (app (state_after env (evs1 ++ evs2)))
                = (messages (app (state_after env evs1)) ++ suffix)%list).
  { unfold state_after. rewrite run_app, fst_and_then. exact Hs. }
  split; [exists suffix; exact Heq |].
  rewrite Heq. apply firstn_length_app.
Qed.

(** * Backend failures *)

(** C5, as amended.  For every failure of the backend call on a page that
    has speech synthesis, exactly one Turn, the fixed fallback apology, is
    appended to the log and given to speech output, the banner is set once,
    to the message of that failure, no request is sent again, and the
    loading flag is cleared, so the page does not wait on the failed
    request. *)
Theorem backend_failure_falls_back
    (env : Env) (w : World) (o : geminiService.SendOutcome) (m : string)
    (now : N) (n : nat) :
  hasSpeechSynthesis env = true ->
  backendPending (browser w) = S n ->
  geminiService.getAIChatResponse env o = Thrown m ->
  let '(w', calls) := step env w (BackendSettled o now) in
  messages (app w')
  = (messages (app w) ++ [mkMessage (toString (now + 1)) fallbackMessage AI now])%list
  /\ speak_calls calls = [fallbackMessage]
  /\ send_calls calls = []
  /\ error (app w') = Some (backend_error_banner m)
  /\ isLoadingAI (app w') = false
  /\ backendPending (browser w') = n.
Proof.
  intros Htts Hpending Hthrown.
  unfold step, dispatch. rewrite Hpending.
  unfold processAndSendTranscript_settled. rewrite Hthrown.
  unfold speakText. rewrite Htts. simpl.
  destruct (synthSpeaking (browser w)); simpl;
    unfold recognition_effect; simpl;
    destruct (negb (hasRecognition env) || negb (isRecording (app w)));
    simpl; repeat split; reflexivity.
Qed.

Lemma backend_failure_falls_back_witness :
  let w := state_after Scenario.env Scenario.awaiting_reply in
  let '(w', calls) :=
    step Scenario.env w
      (BackendSettled (geminiService.SendError "Failed to fetch") 5400) in
  messages (app w')
  = (messages (app w) ++ [mkMessage (toString (5400 + 1)) fallbackMessage AI 5400])%list
  /\ speak_calls calls = [fallbackMessage]
  /\ send_calls calls = []
  /\ error (app w')
     = Some (backend_error_banner "Failed to get AI response: Failed to fetch")
  /\ isLoadingAI (app w') = false
  /\ backendPending (browser w') = 0.
Proof.
  exact (backend_failure_falls_back Scenario.env
           (state_after Scenario.env Scenario.awaiting_reply)
           (geminiService.SendError "Failed to fetch")
           "Failed to get AI response: Failed to fetch" 5400 0
           eq_refl eq_refl eq_refl).
Defined.

(** C5, as stated, fails on a page without speech synthesis: after the
    failure nothing is given to speech output and the banner carries the
    text of [speakText], not the failure. *)
Lemma backend_failure_falls_back_counterexample :
  let w := state_after Scenario.env_mute Scenario.awaiting_reply in
  backendPending (browser w) = 1
  /\ let '(w', calls) :=
       step Scenario.env_mute w
         (BackendSettled (geminiService.SendError "Failed to fetch") 5400) in
     speak_calls calls = []
     /\ error (app w') = Some "Text-to-Speech not supported in this browser."
     /\ error (app w')
        <> Some (backend_error_banner "Failed to get AI response: Failed to fetch")
     /\ map text (messages (app w')) = [initialMessageText; "hi"; fallbackMessage]
     /\ isLoadingAI (app w') = false.
Proof.
  vm_compute. repeat split. discriminate.
Qed.

(** C6, as amended.  When the backend call is rejected with a network error
    of message [m], on a page that has speech synthesis, the log gains the
    fallback apology Turn, whose text contains [issue]; the banner reads
    [Error getting AI response: Failed to get AI response: ] followed by
    [m]; the apology is given to speech output; and the page is speaking
    once playback starts and idle again (not loading, not speaking) once it
    ends. *)
Theorem network_error_scenario
    (env : Env) (w : World) (m : string) (now : N) (n : nat) :
  API_KEY env = true ->
  hasSpeechSynthesis env = true ->
  backendPending (browser w) = S n ->
  let '(w1, calls) := step env w (BackendSettled (geminiService.SendError m) now) in
  let w2 := fst (step env w1 UtteranceStart) in
  let w3 := fst (step env w2 UtteranceEnd) in
  messages (app w1)
  = (messages (app w) ++ [mkMessage (toString (now + 1)) fallbackMessage AI now])%list
  /\ includes "issue" fallbackMessage = true
  /\ error (app w1)
     = Some ("Error getting AI response: " ++ ("Failed to get AI response: " ++ m))
  /\ speak_calls calls = [fallbackMessage]
  /\ (isLoadingAI (app w2) = false /\ isAISpeaking (app w2) = true)
  /\ (isLoadingAI (app w3) = false /\ isAISpeaking (app w3) = false
      /\ isRecording (app w3) = isRecording (app w)).
Proof.
  intros Hkey Htts Hpending.
  destruct w as [a b]. destruct a, b. destruct env as [k r t].
  simpl in *. subst.
  unfold step, dispatch. simpl.
  destruct synthSpeaking0, r, isRecording0; simpl; repeat split; reflexivity.
Qed.

Lemma network_error_scenario_witness :
  let w := state_after Scenario.env Scenario.awaiting_reply in
  let '(w1, calls) :=
    step Scenario.env w
      (BackendSettled (geminiService.SendError "Failed to fetch") 5400) in
  let w2 := fst (step Scenario.env w1 UtteranceStart) in
  let w3 := fst (step Scenario.env w2 UtteranceEnd) in
  messages (app w1)
  = (messages (app w) ++ [mkMessage (toString (5400 + 1)) fallbackMessage AI 5400])%list
  /\ includes "issue" fallbackMessage = true
  /\ error (app w1)
     = Some ("Error getting AI response: "
             ++ ("Failed to get AI response: " ++ "Failed to fetch"))
  /\ speak_calls calls = [fallbackMessage]
  /\ (isLoadingAI (app w2) = false /\ isAISpeaking (app w2) = true)
  /\ (isLoadingAI (app w3) = false /\ isAISpeaking (app w3) = false
      /\ isRecording (app w3) = isRecording (app w)).
Proof.
  exact (network_error_scenario Scenario.env
           (state_after Scenario.env Scenario.awaiting_reply)
           "Failed to fetch" 5400 0 eq_refl eq_refl eq_refl).
Defined.

(** C6, as stated, fails when the request is rejected with the network
    error [Failed to fetch]: the banner does not contain [issue]; it is the
    logged apology that does. *)
Lemma network_error_scenario_counterexample :
  let w := state_after Scenario.env Scenario.awaiting_reply in
  let w' :=
    fst (step Scenario.env w
           (BackendSettled (geminiService.SendError "Failed to fetch") 5400)) in
  error (app w')
  = Some "Error getting AI response: Failed to get AI response: Failed to fetch"
  /\ includes "issue"
       "Error getting AI response: Failed to get AI response: Failed to fetch"
     = false.
Proof.
  vm_compute. split; reflexivity.
Qed.

(** * Starting the conversation *)

(** No event clears [conversationStarted]. *)
Lemma step_keeps_started (env : Env) (w : World) (ev : Event) :
  conversationStarted (app w) = true ->
  conversationStarted (app (fst (step env w ev))) = true.
Proof.
  intros Hs. destruct w as [a b]. destruct a, b. simpl in Hs. subst.
  destruct ev; open_step; split_tests; reflexivity.
Qed.

Lemma run_keeps_started (env : Env) (evs : list Event) (w : World) :
  conversationStarted (app w) = true ->
  conversationStarted (app (fst (run env w evs))) = true.
Proof.
  revert w. induction evs as [|ev evs IH]; intros w Hs; simpl; [exact Hs |].
  rewrite fst_and_then. apply IH, step_keeps_started, Hs.
Qed.

(** Once the conversation has started, the handler only clears the banner. *)
Lemma start_again_only_clears_banner (env : Env) (w : World) :
  conversationStarted (app w) = true ->
  handleStartConversation env w = (on_app (setError None) w, []).
Proof.
  intros Hs. destruct w as [a b]. destruct a. simpl in Hs. subst.
  unfold handleStartConversation. simpl.
  destruct messages0 as [|m rest]; simpl; [reflexivity |].
  rewrite andb_false_r. reflexivity.
Qed.

(** C10, as amended.  On a page that has speech synthesis, the first
    invocation of [handleStartConversation], with the greeting as the first
    logged Turn and an agent Turn, gives the greeting to speech output
    once; after it, whatever events happen in between, every invocation
    makes no call and changes nothing but the banner, which it clears.  So
    the greeting is spoken at most once. *)
Theorem greeting_spoken_once
    (env : Env) (w : World) (m : Message) (rest : list Message) :
  hasSpeechSynthesis env = true ->
  messages (app w) = m :: rest ->
  sender m = AI ->
  conversationStarted (app w) = false ->
  let '(w1, calls1) := handleStartConversation env w in
  speak_calls calls1 = [text m]
  /\ conversationStarted (app w1) = true
  /\ forall evs : list Event,
       let w2 := fst (run env w1 evs) in
       handleStartConversation env w2 = (on_app (setError None) w2, []).
Proof.
  intros Htts Hm Hai Hs.
  assert (Hstarted : conversationStarted (app (fst (handleStartConversation env w))) = true).
  { unfold handleStartConversation. rewrite fst_and_then. reflexivity. }
  assert (Hcalls : speak_calls (snd (handleStartConversation env w)) = [text m]).
  { unfold handleStartConversation, speakText. rewrite Hm, Hai, Hs, Htts. simpl.
    destruct (synthSpeaking (browser w)); reflexivity. }
  destruct (handleStartConversation env w) as [w1 calls1]. simpl in *.
  split; [exact Hcalls | split; [exact Hstarted |]].
  intros evs. apply start_again_only_clears_banner, run_keeps_started, Hstarted.
Qed.

Lemma greeting_spoken_once_witness :
  let w :=
    state_after Scenario.env [Mount (geminiService.CreateOk Scenario.session) 1000] in
  let '(w1, calls1) := handleStartConversation Scenario.env w in
  speak_calls calls1 = [initialMessageText]
  /\ conversationStarted (app w1) = true
  /\ forall evs : list Event,
       let w2 := fst (run Scenario.env w1 evs) in
       handleStartConversation Scenario.env w2 = (on_app (setError None) w2, []).
Proof.
  exact (greeting_spoken_once Scenario.env
           (state_after Scenario.env
              [Mount (geminiService.CreateOk Scenario.session) 1000])
           (mkMessage "1000" initialMessageText AI 1000) []
           eq_refl eq_refl eq_refl eq_refl).
Defined.

(** C10, as stated, fails on a page without speech synthesis: the first
    invocation, with the greeting logged, gives nothing to speech output. *)
Lemma greeting_spoken_once_counterexample :
  let w :=
    state_after Scenario.env_mute
      [Mount (geminiService.CreateOk Scenario.session) 1000] in
  messages (app w) = [mkMessage "1000" initialMessageText AI 1000]
  /\ conversationStarted (app w) = false
  /\ speak_calls (snd (handleStartConversation Scenario.env_mute w)) = []
  /\ conversationStarted (app (fst (handleStartConversation Scenario.env_mute w)))
     = true.
Proof.
  vm_compute. repeat split.
Qed.

(** * The microphone toggle, requests and playback *)

(** While [isLoadingAI] holds the microphone button is disabled, and a press
    on it changes nothing and makes no call. *)
Lemma mic_press_ignored_while_loading (env : Env) (w : World) :
  isLoadingAI (app w) = true ->
  dispatch env w ClickMic = (w, []).
Proof.
  intros Hl. unfold dispatch, render.
  destruct (apiKeyMissing (app w)); [reflexivity |]. simpl.
  rewrite Hl. rewrite orb_true_r. reflexivity.
Qed.

(** A press that reaches the handler while [isAISpeaking] holds cancels
    playback and clears the flag before anything else. *)
Lemma toggle_cancels_playback (env : Env) (w : World) :
  apiKeyMissing (app w) = false ->
  isInitialized (app w) = true ->
  hasRecognition env = true ->
  conversationStarted (app w) = true ->
  isAISpeaking (app w) = true ->
  let '(w', calls) := handleToggleRecording env w in
  hd_error calls = Some synth_cancel
  /\ isAISpeaking (app w') = false
  /\ synthSpeaking (browser w') = false
  /\ synthQueued (browser w') = 0.
Proof.
  intros Hk Hi Hr Hs Ha. unfold handleToggleRecording.
  rewrite Hk, Hi, Hr, Hs, Ha. simpl.
  destruct (isRecording (app w)); simpl; repeat split; reflexivity.
Qed.

(** X20.  When the flag is set at the press and [getUserMedia] resolves next,
    playback is cancelled first and the recording starts with the flag
    cleared. *)
Lemma press_while_speaking_cancels_first (env : Env) (w : World) :
  hasRecognition env = true ->
  apiKeyMissing (app w) = false ->
  isInitialized (app w) = true ->
  conversationStarted (app w) = true ->
  isLoadingAI (app w) = false ->
  isRecording (app w) = false ->
  isAISpeaking (app w) = true ->
  recActive (browser w) = false ->
  gumPending (browser w) = 0 ->
  let '(w', calls) := run env w [ClickMic; GetUserMediaResolved] in
  calls = [synth_cancel; getUserMedia; recognition_start]
  /\ isRecording (app w') = true
  /\ isAISpeaking (app w') = false
  /\ synthSpeaking (browser w') = false.
Proof.
  intros Hr Hk Hi Hs Hl Hrec Ha Hact Hg.
  destruct w as [a b]. destruct a, b. destruct env as [k r t].
  simpl in *. subst. repeat split; reflexivity.
Qed.

(** C2.  The code at the failing input: the microphone is pressed twice
    during a recording, and the second press is still awaiting
    [getUserMedia] when the first recording ends.  The transcript [a] is
    sent, the second recording starts while that request is pending, and
    when it ends [b] is sent as well: two backend requests are outstanding,
    none of them settled. *)
Theorem double_press_two_requests :
  let w1 := state_after Scenario.env Scenario.double_press_recording in
  let '(w2, calls) := run Scenario.env initial Scenario.double_press in
  (isLoadingAI (app w1) = true
   /\ backendPending (browser w1) = 1
   /\ isRecording (app w1) = true
   /\ recActive (browser w1) = true)
  /\ (backendPending (browser w2) = 2
      /\ send_calls calls = ["a"; "b"]
      /\ isLoadingAI (app w2) = true).
Proof.
  vm_compute. repeat split.
Qed.

(** C3.  The code at the failing input: the microphone is pressed after the
    greeting was given to speech output and before it began, and it begins
    while [getUserMedia] is awaited.  Nothing cancels it: recording and
    speaking are on together, in the flags and in the browser. *)
Theorem greeting_plays_over_recording :
  let '(w, calls) := run Scenario.env initial Scenario.greeting_over_capture in
  isRecording (app w) = true
  /\ isAISpeaking (app w) = true
  /\ recActive (browser w) = true
  /\ synthSpeaking (browser w) = true
  /\ ~ In synth_cancel calls.
Proof.
  vm_compute. repeat split. intros H.
  repeat (destruct H as [H | H]; [discriminate |]). exact H.
Qed.

(** * Turn identifiers *)

Lemma toString_inj (n n' : N) : toString n = toString n' -> n = n'.
Proof.
  unfold toString. intros H.
  assert (Hnil : forall k : N, N.to_uint k <> Decimal.Nil).
  { intros [|p]; simpl; [discriminate | apply DecimalPos.Unsigned.to_uint_nonnil]. }
  apply (f_equal NilZero.uint_of_string) in H.
  rewrite !NilZero.usu in H by apply Hnil.
  injection H as H. now apply DecimalN.Unsigned.to_uint_inj.
Qed.

(** Within one exchange the reply never takes the identifier of the user
    Turn, as long as the clock has not gone back in between. *)
Lemma reply_id_differs (now now' : N) :
  (now <= now')%N -> toString now <> toString (now' + 1).
Proof.
  intros Hle H. apply toString_inj in H. lia.
Qed.

(** C9.  The code at the failing input: a reply arrives when the clock
    reads 5400 and the next recording ends when it reads 5401.  The reply
    and the next user Turn are logged under the same identifier. *)
Theorem turn_ids_collide :
  let w := state_after Scenario.env Scenario.reply_then_next_turn in
  map id (messages (app w)) = ["1000"; "5000"; "5401"; "5401"]
  /\ map sender (messages (app w)) = [AI; USER; AI; USER]
  /\ ~ NoDup (map id (messages (app w))).
Proof.
  vm_compute. repeat split. intros H.
  inversion H as [|x1 l1 _ H1]; subst.
  inversion H1 as [|x2 l2 _ H2]; subst.
  inversion H2 as [|x3 l3 Hin _]; subst.
  apply Hin. left. reflexivity.
Qed.

(** The same collision with a clock that only advances: the second recording
    of a double press ends one millisecond after the reply to the first. *)
Lemma turn_ids_collide_steady_clock :
  let w := state_after Scenario.env Scenario.double_press_reply in
  map id (messages (app w)) = ["1000"; "5000"; "5401"; "5401"]
  /\ map text (messages (app w)) = [initialMessageText; "a"; "Hello"; "b"].
Proof.
  vm_compute. split; reflexivity.
Qed.

(** * Properties of every run of the page *)

Section Traces.

Variable env : Env.

Lemma snd_and_then (o : Outcome) (k : World -> Outcome) :
  snd (and_then o k) = (snd o ++ snd (k (fst o)))%list.
Proof.
  unfold and_then. destruct o as [w1 c1]. simpl. now destruct (k w1).
Qed.

Lemma run_snoc (w : World) (evs : list Event) (ev : Event) :
  run env w (evs ++ [ev]) = and_then (run env w evs) (fun w1 => step env w1 ev).
Proof.
  rewrite run_app. unfold and_then.
  destruct (run env w evs) as [w1 c1]. now rewrite run_one.
Qed.

Lemma before_mount_cases (w : World) :
  nothing_before_mount w -> w = initial \/ mounted (browser w) = true.
Proof.
  unfold nothing_before_mount. destruct (mounted (browser w)); auto.
Qed.

(** Induction over the runs of the page from its first render: the state
    reached and the calls made so far. *)
Lemma traces_ind (P : World -> list Call -> Prop) :
  P initial [] ->
  (forall (w : World) (cs : list Call) (ev : Event),
     nothing_before_mount w ->
     P w cs ->
     P (fst (step env w ev)) (cs ++ snd (step env w ev))%list) ->
  forall evs : list Event,
    P (fst (run env initial evs)) (snd (run env initial evs)).
Proof.
  intros H0 Hstep evs. induction evs as [|ev evs IH] using rev_ind.
  - exact H0.
  - rewrite run_snoc, fst_and_then, snd_and_then.
    apply Hstep; [| exact IH].
    apply run_extends_log. intros _. reflexivity.
Qed.

(** Induction for properties of the state alone. *)
Lemma states_ind (P : World -> Prop) :
  P initial ->
  (forall (w : World) (ev : Event),
     nothing_before_mount w -> P w -> P (fst (step env w ev))) ->
  forall evs : list Event, P (state_after env evs).
Proof.
  intros H0 Hstep evs.
  apply (traces_ind (fun w _ => P w)); [exact H0 |].
  intros w cs ev Hw Hp. now apply Hstep.
Qed.

End Traces.

(** The loading flag is raised only with a request outstanding, and the
    settling of a request lowers it. *)
Lemma step_loading_has_request (env : Env) (w : World) (ev : Event) :
  (isLoadingAI (app w) = true -> backendPending (browser w) <> 0) ->
  isLoadingAI (app (fst (step env w ev))) = true ->
  backendPending (browser (fst (step env w ev))) <> 0.
Proof.
  intros H.
  destruct w as [a b]. destruct a, b. destruct env as [k r t].
  simpl in H.
  destruct ev; open_step; split_tests;
    intros Hl; simpl in *; try discriminate; try (now apply H); auto.
Qed.

(** X12.  Whatever has happened, a raised loading flag has a backend request
    behind it that has not settled: the spinner and the disabled microphone
    button are never left over from a request that is gone. *)
Theorem loading_has_a_request (env : Env) (evs : list Event) :
  isLoadingAI (app (state_after env evs)) = true ->
  backendPending (browser (state_after env evs)) <> 0.
Proof.
  apply (states_ind env
           (fun w => isLoadingAI (app w) = true -> backendPending (browser w) <> 0)).
  - discriminate.
  - intros w ev _ H. now apply step_loading_has_request.
Qed.

Lemma loading_has_a_request_witness :
  backendPending (browser (state_after Scenario.env Scenario.awaiting_reply)) <> 0.
Proof.
  exact (loading_has_a_request Scenario.env Scenario.awaiting_reply eq_refl).
Defined.

(** * Pages that lack a capability *)

Lemma step_never_capturing (env : Env) (w : World) (ev : Event) :
  hasRecognition env = false ->
  never_capturing w ->
  never_capturing (fst (step env w ev))
  /\ forallb (fun c => negb (capture_call c)) (snd (step env w ev)) = true
  /\ send_calls (snd (step env w ev)) = [].
Proof.
  unfold never_capturing. intros Hr (H1 & H2 & H3 & H4).
  destruct w as [a b]. destruct a, b. destruct env as [k r t].
  simpl in *. subst.
  destruct ev; open_step; split_tests;
    first [repeat split; reflexivity | contradictory].
Qed.

(** X6.  On a page without a speech recognizer nothing is ever recorded: whatever
    the user and the browser do, [isRecording] stays false, the microphone
    is never asked for, the recognizer is never called, and nothing is sent
    to the backend. *)
Theorem no_recognizer_no_capture (env : Env) (evs : list Event) :
  hasRecognition env = false ->
  let '(w, calls) := run env initial evs in
  isRecording (app w) = false
  /\ forallb (fun c => negb (capture_call c)) calls = true
  /\ send_calls calls = [].
Proof.
  intros Hr.
  pose proof
    (traces_ind env
       (fun w cs =>
          never_capturing w
          /\ forallb (fun c => negb (capture_call c)) cs = true
          /\ send_calls cs = [])) as Hind.
  assert (H : never_capturing (fst (run env initial evs))
              /\ forallb (fun c => negb (capture_call c)) (snd (run env initial evs)) = true
              /\ send_calls (snd (run env initial evs)) = []).
  { apply Hind.
    - repeat split.
    - intros w cs ev _ (Hw & Hc & Hs).
      destruct (step_never_capturing env w ev Hr Hw) as (Hw' & Hc' & Hs').
      split; [exact Hw' | split].
      + now rewrite forallb_app, Hc, Hc'.
      + unfold send_calls in *. now rewrite flat_map_app, Hs, Hs'. }
  destruct (run env initial evs) as [w calls]. simpl in H.
  destruct H as ((Hrec & _) & Hc & Hs). auto.
Qed.

Lemma no_recognizer_no_capture_witness :
  let '(w, calls) :=
    run (mkEnv true false true) initial
      (Scenario.started ++ [ClickMic; GetUserMediaResolved; RecognitionEnd 5000]) in
  isRecording (app w) = false
  /\ forallb (fun c => negb (capture_call c)) calls = true
  /\ send_calls calls = [].
Proof.
  exact (no_recognizer_no_capture (mkEnv true false true)
           (Scenario.started ++ [ClickMic; GetUserMediaResolved; RecognitionEnd 5000])
           eq_refl).
Defined.

Lemma step_never_speaking (env : Env) (w : World) (ev : Event) :
  hasSpeechSynthesis env = false ->
  never_speaking w ->
  never_speaking (fst (step env w ev))
  /\ forallb (fun c => negb (synth_call c)) (snd (step env w ev)) = true.
Proof.
  unfold never_speaking. intros Ht (H1 & H2 & H3 & H4).
  destruct w as [a b]. destruct a, b. destruct env as [k r t].
  simpl in *. subst.
  destruct ev; open_step; split_tests;
    first [repeat split; reflexivity | contradictory].
Qed.

(** X7.  On a page without speech synthesis [speechSynthesis] is never touched:
    whatever happens, no utterance is spoken or cancelled and
    [isAISpeaking] stays false. *)
Theorem no_synthesis_no_speech (env : Env) (evs : list Event) :
  hasSpeechSynthesis env = false ->
  let '(w, calls) := run env initial evs in
  isAISpeaking (app w) = false
  /\ forallb (fun c => negb (synth_call c)) calls = true.
Proof.
  intros Ht.
  assert (H : never_speaking (fst (run env initial evs))
              /\ forallb (fun c => negb (synth_call c)) (snd (run env initial evs)) = true).
  { apply (traces_ind env
             (fun w cs =>
                never_speaking w
                /\ forallb (fun c => negb (synth_call c)) cs = true)).
    - repeat split.
    - intros w cs ev _ (Hw & Hc).
      destruct (step_never_speaking env w ev Ht Hw) as (Hw' & Hc').
      split; [exact Hw' | now rewrite forallb_app, Hc, Hc']. }
  destruct (run env initial evs) as [w calls]. simpl in H.
  destruct H as ((Hs & _) & Hc). auto.
Qed.

Lemma no_synthesis_no_speech_witness :
  let '(w, calls) :=
    run Scenario.env_mute initial
      (Scenario.awaiting_reply
       ++ [BackendSettled (geminiService.SendOk "Hello") 5400; UtteranceStart]) in
  isAISpeaking (app w) = false
  /\ forallb (fun c => negb (synth_call c)) calls = true.
Proof.
  exact (no_synthesis_no_speech Scenario.env_mute
           (Scenario.awaiting_reply
            ++ [BackendSettled (geminiService.SendOk "Hello") 5400; UtteranceStart])
           eq_refl).
Defined.

(** * Before the start button *)

Lemma step_at_rest_mounted (env : Env) (w : World) (ev : Event) :
  mounted (browser w) = true ->
  at_rest_until_started w ->
  at_rest_until_started (fst (step env w ev))
  /\ (conversationStarted (app (fst (step env w ev))) = false ->
      snd (step env w ev) = []).
Proof.
  unfold at_rest_until_started. intros Hm H.
  destruct w as [a b]. destruct a, b. destruct env as [k r t].
  simpl in *. subst.
  destruct conversationStarted0.
  - clear H.
    destruct ev; open_step; split_tests; split; intros; discriminate.
  - destruct (H eq_refl) as (H1 & H2 & H3 & H4 & H5 & H6 & H7 & H8 & H9 & H10).
    clear H. subst.
    destruct ev; open_step; split_tests;
      first
        [ contradictory
        | split; [intros; discriminate | intros; discriminate]
        | split; [intros _; repeat split; assumption | intros _; reflexivity] ].
Qed.

Lemma step_at_rest_initial (env : Env) (ev : Event) :
  at_rest_until_started (fst (step env initial ev))
  /\ (conversationStarted (app (fst (step env initial ev))) = false ->
      forallb (fun c => match c with chats_create => true | _ => false end)
        (snd (step env initial ev)) = true).
Proof.
  unfold at_rest_until_started.
  destruct env as [k r t].
  destruct ev; try (destruct r; split; intros; repeat split; reflexivity).
  destruct k, r, o; split; intros; repeat split; reflexivity.
Qed.

Lemma step_at_rest (env : Env) (w : World) (ev : Event) :
  nothing_before_mount w ->
  at_rest_until_started w ->
  at_rest_until_started (fst (step env w ev))
  /\ (conversationStarted (app (fst (step env w ev))) = false ->
      forallb (fun c => match c with chats_create => true | _ => false end)
        (snd (step env w ev)) = true).
Proof.
  intros Hw H. destruct (before_mount_cases w Hw) as [-> | Hm].
  - apply step_at_rest_initial.
  - destruct (step_at_rest_mounted env w ev Hm H) as [H1 H2].
    split; [exact H1 |]. intros Hs. now rewrite (H2 Hs).
Qed.

(** X8.  Nothing is played and no microphone is asked for before the user has
    pressed the start button: as long as [conversationStarted] is false,
    the only call the page has ever made is the creation of the chat
    session, and nothing is recording, loading or speaking. *)
Theorem silent_until_started (env : Env) (evs : list Event) :
  conversationStarted (app (state_after env evs)) = false ->
  forallb (fun c => match c with chats_create => true | _ => false end)
    (snd (run env initial evs)) = true
  /\ isRecording (app (state_after env evs)) = false
  /\ isAISpeaking (app (state_after env evs)) = false
  /\ backendPending (browser (state_after env evs)) = 0.
Proof.
  unfold state_after.
  pose proof
    (traces_ind env
       (fun w cs =>
          at_rest_until_started w
          /\ (conversationStarted (app w) = false ->
              forallb (fun c => match c with chats_create => true | _ => false end)
                cs = true))) as Hind.
  assert (H : at_rest_until_started (fst (run env initial evs))
              /\ (conversationStarted (app (fst (run env initial evs))) = false ->
                  forallb (fun c => match c with chats_create => true | _ => false end)
                    (snd (run env initial evs)) = true)).
  { apply Hind.
    - split; [| reflexivity]. intros _. repeat split.
    - intros w cs ev Hw (Hrest & Hcs).
      destruct (step_at_rest env w ev Hw Hrest) as (Hrest' & Hcs').
      split; [exact Hrest' |]. intros Hs.
      rewrite forallb_app, (Hcs' Hs), andb_true_r. apply Hcs.
      destruct (conversationStarted (app w)) eqn:E; [| reflexivity].
      now rewrite (step_keeps_started env w ev E) in Hs. }
  intros Hs. destruct H as (Hrest & Hcs).
  destruct (Hrest Hs) as (H1 & H2 & _ & _ & H5 & _).
  auto.
Qed.

Lemma silent_until_started_witness :
  forallb (fun c => match c with chats_create => true | _ => false end)
    (snd (run Scenario.env initial
            [Mount (geminiService.CreateOk Scenario.session) 1000; ClickMic;
             GetUserMediaResolved; UtteranceStart; RecognitionEnd 5000]))
  = true
  /\ isRecording
       (app (state_after Scenario.env
               [Mount (geminiService.CreateOk Scenario.session) 1000; ClickMic;
                GetUserMediaResolved; UtteranceStart; RecognitionEnd 5000]))
     = false
  /\ isAISpeaking
       (app (state_after Scenario.env
               [Mount (geminiService.CreateOk Scenario.session) 1000; ClickMic;
                GetUserMediaResolved; UtteranceStart; RecognitionEnd 5000]))
     = false
  /\ backendPending
       (browser (state_after Scenario.env
                   [Mount (geminiService.CreateOk Scenario.session) 1000; ClickMic;
                    GetUserMediaResolved; UtteranceStart; RecognitionEnd 5000]))
     = 0.
Proof.
  exact (silent_until_started Scenario.env
           [Mount (geminiService.CreateOk Scenario.session) 1000; ClickMic;
            GetUserMediaResolved; UtteranceStart; RecognitionEnd 5000]
           eq_refl).
Defined.

(** * What is spoken and what is sent *)

Lemma agent_texts_app (l1 l2 : list Message) :
  agent_texts (l1 ++ l2) = (agent_texts l1 ++ agent_texts l2)%list.
Proof.
  unfold agent_texts. now rewrite filter_app, map_app.
Qed.

Lemma user_texts_app (l1 l2 : list Message) :
  user_texts (l1 ++ l2) = (user_texts l1 ++ user_texts l2)%list.
Proof.
  unfold user_texts. now rewrite filter_app, map_app.
Qed.

(** Once the conversation has started, an event speaks exactly the agent
    Turns it logs. *)
Lemma step_speaks_started (env : Env) (w : World) (ev : Event) :
  hasSpeechSynthesis env = true ->
  mounted (browser w) = true ->
  conversationStarted (app w) = true ->
  agent_texts (messages (app (fst (step env w ev))))
  = (agent_texts (messages (app w)) ++ speak_calls (snd (step env w ev)))%list.
Proof.
  intros Ht Hm Hs.
  destruct w as [a b]. destruct a, b. destruct env as [k r t].
  simpl in *. subst.
  destruct ev; open_step; split_tests;
    first
      [ simpl; unfold appendMessage; simpl;
        rewrite ?agent_texts_app; simpl; rewrite ?app_nil_r; reflexivity
      | contradictory ].
Qed.

(** The press on the start button speaks the one agent Turn logged so far,
    the greeting; before it, no event speaks. *)
Lemma step_speaks_unstarted (env : Env) (w : World) (ev : Event) :
  hasSpeechSynthesis env = true ->
  mounted (browser w) = true ->
  conversationStarted (app w) = false ->
  at_rest_until_started w ->
  (if conversationStarted (app (fst (step env w ev)))
   then agent_texts (messages (app (fst (step env w ev))))
   else [])
  = speak_calls (snd (step env w ev)).
Proof.
  unfold at_rest_until_started. intros Ht Hm Hs H.
  destruct (H Hs) as (H1 & H2 & H3 & H4 & H5 & H6 & H7 & H8 & H9 & H10).
  clear H.
  destruct w as [a b]. destruct a, b. destruct env as [k r t].
  simpl in *. subst.
  destruct ev;
    try (open_step; split_tests; first [reflexivity | contradictory]).
  unfold step, dispatch, render. simpl.
  destruct apiKeyMissing0; [destruct r; unfold recognition_effect; simpl; reflexivity |]. simpl.
  destruct isInitialized0; simpl; [| destruct r; unfold recognition_effect; simpl; reflexivity].
  destruct messages0 as [|m0 [|m1 rest]]; simpl in H10; try discriminate.
  unfold handleStartConversation, speakText, and_then, quiet. simpl.
  unfold agent_texts in *. simpl in H9.
  destruct r; unfold recognition_effect; simpl;
    destruct (Sender_eqb (sender m0) AI) eqn:E; simpl in *; rewrite ?E;
    solve [reflexivity | discriminate].
Qed.

Lemma step_speaks_initial (env : Env) (ev : Event) :
  conversationStarted (app (fst (step env initial ev))) = false
  /\ speak_calls (snd (step env initial ev)) = [].
Proof.
  destruct env as [k r t].
  destruct ev; try (destruct r; split; reflexivity).
  destruct k, r, o; split; reflexivity.
Qed.

(** X9.  On a page with speech synthesis, every agent Turn of the log is given
    to speech output exactly once and in log order, and nothing else is:
    from the press on the start button on, the texts spoken so far are the
    texts of the agent Turns logged so far; before it nothing is spoken. *)
Theorem spoken_is_agent_log (env : Env) (evs : list Event) :
  hasSpeechSynthesis env = true ->
  let '(w, calls) := run env initial evs in
  speak_calls calls
  = (if conversationStarted (app w) then agent_texts (messages (app w)) else []).
Proof.
  intros Ht.
  assert (H : at_rest_until_started (fst (run env initial evs))
              /\ speak_calls (snd (run env initial evs))
                 = (if conversationStarted (app (fst (run env initial evs)))
                    then agent_texts (messages (app (fst (run env initial evs))))
                    else [])).
  { apply (traces_ind env
             (fun w cs =>
                at_rest_until_started w
                /\ speak_calls cs
                   = (if conversationStarted (app w)
                      then agent_texts (messages (app w)) else []))).
    - split; [intros _; repeat split | reflexivity].
    - intros w cs ev Hw (Hrest & Hcs).
      split; [apply (step_at_rest env w ev Hw Hrest) |].
      unfold speak_calls in *. rewrite flat_map_app. fold (speak_calls cs).
      fold (speak_calls (snd (step env w ev))).
      unfold speak_calls in Hcs. fold (speak_calls cs) in Hcs. rewrite Hcs.
      destruct (before_mount_cases w Hw) as [-> | Hm].
      + destruct (step_speaks_initial env ev) as [E1 E2].
        rewrite E1, E2. reflexivity.
      + destruct (conversationStarted (app w)) eqn:Hs.
        * rewrite (step_keeps_started env w ev Hs).
          symmetry. apply step_speaks_started; assumption.
        * simpl. symmetry. apply step_speaks_unstarted; assumption. }
  destruct (run env initial evs) as [w calls]. simpl in H. apply H.
Qed.

Lemma spoken_is_agent_log_witness :
  let '(w, calls) :=
    run Scenario.env initial
      (Scenario.awaiting_reply
       ++ [BackendSettled (geminiService.SendOk "Hello") 5400]) in
  speak_calls calls
  = (if conversationStarted (app w) then agent_texts (messages (app w)) else []).
Proof.
  exact (spoken_is_agent_log Scenario.env
           (Scenario.awaiting_reply
            ++ [BackendSettled (geminiService.SendOk "Hello") 5400])
           eq_refl).
Defined.

(** [trim] applied twice is [trim]. *)
Lemma trimEnd_idempotent (s : string) : trimEnd (trimEnd s) = trimEnd s.
Proof.
  induction s as [|c r IH]; simpl; [reflexivity |].
  destruct (trimEnd r) as [|c' r'] eqn:E.
  - destruct (is_white_space c) eqn:Ec; simpl; [reflexivity | now rewrite Ec].
  - simpl in *. now rewrite IH.
Qed.

Lemma trimStart_idempotent (s : string) : trimStart (trimStart s) = trimStart s.
Proof.
  induction s as [|c r IH]; simpl; [reflexivity |].
  destruct (is_white_space c) eqn:Ec; [exact IH | simpl; now rewrite Ec].
Qed.

Lemma trimStart_trimEnd (s : string) :
  trimStart s = s -> trimStart (trimEnd s) = trimEnd s.
Proof.
  destruct s as [|c r]; simpl; [reflexivity |].
  destruct (is_white_space c) eqn:Ec.
  - intros H. exfalso.
    assert (Hlen : forall t, String.length (trimStart t) <= String.length t).
    { induction t as [|x t IHt]; simpl; [lia |].
      destruct (is_white_space x); simpl; lia. }
    specialize (Hlen r). rewrite H in Hlen. simpl in Hlen. lia.
  - intros _. destruct (trimEnd r); simpl; now rewrite Ec.
Qed.

Lemma trim_idempotent (s : string) : trim (trim s) = trim s.
Proof.
  unfold trim.
  rewrite (trimStart_trimEnd (trimStart s)) by apply trimStart_idempotent.
  apply trimEnd_idempotent.
Qed.

Lemma session_needs_key_step (env : Env) (w : World) (ev : Event) :
  mounted (browser w) = true ->
  session_needs_key env w ->
  session_needs_key env (fst (step env w ev)).
Proof.
  unfold session_needs_key. intros Hm H.
  destruct w as [a b]. destruct a, b. destruct env as [k r t].
  simpl in *. subst.
  destruct k; [intros; discriminate |].
  destruct (H eq_refl) as [H1 H2]. clear H. subst.
  destruct ev; open_step; split_tests;
    intros _; simpl; first [split; [reflexivity | assumption || exact I || reflexivity]
                           | contradictory].
Qed.

Lemma session_needs_key_initial (env : Env) (ev : Event) :
  session_needs_key env (fst (step env initial ev)).
Proof.
  unfold session_needs_key. destruct env as [k r t]. simpl.
  intros ->. destruct ev; destruct r; split; exact I || reflexivity.
Qed.

(** One event sends exactly the user Turns it logs, and each of them is a
    trimmed text. *)
Lemma step_sends_user_turns (env : Env) (w : World) (ev : Event) :
  mounted (browser w) = true ->
  session_needs_key env w ->
  user_texts (messages (app (fst (step env w ev))))
  = (user_texts (messages (app w)) ++ send_calls (snd (step env w ev)))%list
  /\ Forall trimmed_text (send_calls (snd (step env w ev))).
Proof.
  unfold session_needs_key. intros Hm H.
  destruct w as [a b]. destruct a, b. destruct env as [k r t].
  simpl in *. subst.
  destruct k.
  - clear H.
    destruct ev; open_step; split_tests;
      (split;
       [ simpl; unfold appendMessage; simpl;
         rewrite ?user_texts_app; simpl; rewrite ?app_nil_r; reflexivity
       | simpl; repeat constructor; auto using trim_idempotent ]).
  - destruct (H eq_refl) as [H1 H2]. clear H. subst.
    destruct ev; open_step; split_tests;
      first
        [ contradictory
        | split;
          [ simpl; unfold appendMessage; simpl;
            rewrite ?user_texts_app; simpl; rewrite ?app_nil_r; reflexivity
          | simpl; constructor ] ].
Qed.

Lemma step_sends_initial (env : Env) (ev : Event) :
  user_texts (messages (app (fst (step env initial ev)))) = []
  /\ send_calls (snd (step env initial ev)) = [].
Proof.
  destruct env as [k r t].
  destruct ev; try (destruct r; split; reflexivity).
  destruct k, r, o; split; reflexivity.
Qed.

(** X10.  The log and the backend agree: whatever has happened, the texts of the
    user Turns in the log are the texts sent to the backend, in the same
    order, and every one of them is non-empty and free of surrounding white
    space.  Nothing is sent that is not logged, and nothing blank is ever
    sent. *)
Theorem sent_is_user_log (env : Env) (evs : list Event) :
  let '(w, calls) := run env initial evs in
  user_texts (messages (app w)) = send_calls calls
  /\ Forall trimmed_text (send_calls calls).
Proof.
  assert (H : session_needs_key env (fst (run env initial evs))
              /\ user_texts (messages (app (fst (run env initial evs))))
                 = send_calls (snd (run env initial evs))
              /\ Forall trimmed_text (send_calls (snd (run env initial evs)))).
  { apply (traces_ind env
             (fun w cs =>
                session_needs_key env w
                /\ user_texts (messages (app w)) = send_calls cs
                /\ Forall trimmed_text (send_calls cs))).
    - repeat split. constructor.
    - intros w cs ev Hw (Hkey & Hlog & Htrim).
      unfold send_calls in *. rewrite flat_map_app.
      fold (send_calls cs) in *. fold (send_calls (snd (step env w ev))).
      destruct (before_mount_cases w Hw) as [-> | Hm].
      + destruct (step_sends_initial env ev) as [E1 E2].
        rewrite E1, E2, app_nil_r.
        split; [apply session_needs_key_initial |].
        split; [exact Hlog | exact Htrim].
      + destruct (step_sends_user_turns env w ev Hm Hkey) as [E1 E2].
        split; [now apply session_needs_key_step |].
        split; [now rewrite E1, Hlog | now apply Forall_app]. }
  destruct (run env initial evs) as [w calls]. simpl in H. apply H.
Qed.

(** * The greeting *)

Lemma step_greeting_first (env : Env) (w : World) (ev : Event) :
  mounted (browser w) = true ->
  greeting_first w
  /\ (isInitialized (app w) = false ->
      recActive (browser w) = false
      /\ backendPending (browser w) = 0
      /\ gumPending (browser w) = 0) ->
  greeting_first (fst (step env w ev))
  /\ (isInitialized (app (fst (step env w ev))) = false ->
      recActive (browser (fst (step env w ev))) = false
      /\ backendPending (browser (fst (step env w ev))) = 0
      /\ gumPending (browser (fst (step env w ev))) = 0).
Proof.
  unfold greeting_first. intros Hm [Hg Hidle].
  destruct w as [a b]. destruct a, b. destruct env as [k r t].
  simpl in *. subst.
  destruct messages0 as [|m rest].
  - subst. destruct (Hidle eq_refl) as (H1 & H2 & H3). clear Hidle. subst.
    destruct ev; open_step; split_tests;
      first [contradictory | split; [reflexivity | intros _; repeat split]].
  - destruct Hg as (Hi & Hs & Ht). subst. clear Hidle.
    destruct ev; open_step; split_tests;
      first [contradictory | split; [repeat split; assumption | intros; discriminate]].
Qed.

Lemma step_greeting_initial (env : Env) (ev : Event) :
  greeting_first (fst (step env initial ev))
  /\ (isInitialized (app (fst (step env initial ev))) = false ->
      recActive (browser (fst (step env initial ev))) = false
      /\ backendPending (browser (fst (step env initial ev))) = 0
      /\ gumPending (browser (fst (step env initial ev))) = 0).
Proof.
  unfold greeting_first. destruct env as [k r t].
  destruct ev;
    try (destruct r; vm_compute;
         (split; [reflexivity | intros _; repeat split; reflexivity])).
  destruct k, r, o; unfold initial; open_step; simpl;
    (split; [repeat split | intros H; first [discriminate | repeat split]]).
Qed.

(** X11.  The log is empty exactly as long as the page is not initialized, and
    from then on its first Turn is the agent's greeting, whatever is logged
    after it. *)
Theorem greeting_stays_first (env : Env) (evs : list Event) :
  greeting_first (state_after env evs).
Proof.
  apply (states_ind env
           (fun w =>
              greeting_first w
              /\ (isInitialized (app w) = false ->
                  recActive (browser w) = false
                  /\ backendPending (browser w) = 0
                  /\ gumPending (browser w) = 0))).
  - repeat split.
  - intros w ev Hw H. destruct (before_mount_cases w Hw) as [-> | Hm].
    + apply step_greeting_initial.
    + now apply step_greeting_first.
Qed.

(** * Identifiers under a steady clock *)

(** An event adds at most one identifier to the log: its clock reading, or
    its clock reading plus one. *)
Lemma step_ids_mounted (env : Env) (w : World) (ev : Event) :
  mounted (browser w) = true ->
  match clock_of ev with
  | Some t =>
      map id (messages (app (fst (step env w ev)))) = map id (messages (app w))
      \/ map id (messages (app (fst (step env w ev))))
         = (map id (messages (app w)) ++ [toString t])%list
      \/ map id (messages (app (fst (step env w ev))))
         = (map id (messages (app w)) ++ [toString (t + 1)])%list
  | None =>
      map id (messages (app (fst (step env w ev)))) = map id (messages (app w))
  end.
Proof.
  intros Hm.
  destruct w as [a b]. destruct a, b. destruct env as [k r t].
  simpl in *. subst.
  destruct ev; open_step; split_tests;
    simpl; unfold appendMessage; simpl; rewrite ?map_app; simpl;
    first
      [ reflexivity
      | left; reflexivity
      | right; left; reflexivity
      | right; right; reflexivity ].
Qed.

Lemma step_ids_initial (env : Env) (ev : Event) :
  match clock_of ev with
  | Some t =>
      map id (messages (app (fst (step env initial ev)))) = []
      \/ map id (messages (app (fst (step env initial ev)))) = [toString t]
  | None => map id (messages (app (fst (step env initial ev)))) = []
  end.
Proof.
  destruct env as [k r t].
  destruct ev; simpl; try (destruct r; reflexivity);
    try (left; destruct r; reflexivity).
  destruct k, r, o; unfold initial; open_step; simpl; auto.
Qed.

Lemma sorted_snoc (ns : list N) (x : N) :
  StronglySorted N.lt ns ->
  Forall (fun n => (n < x)%N) ns ->
  StronglySorted N.lt (ns ++ [x]).
Proof.
  induction 1 as [|a l Hs IH Ha]; intros Hx; simpl.
  - repeat constructor.
  - inversion Hx; subst. constructor; [auto |].
    apply Forall_app. split; [exact Ha | repeat constructor; assumption].
Qed.

Lemma sorted_nodup (ns : list N) : StronglySorted N.lt ns -> NoDup ns.
Proof.
  induction 1 as [|a l Hs IH Ha]; constructor; [| exact IH].
  intros Hin. rewrite Forall_forall in Ha. specialize (Ha a Hin). lia.
Qed.

Lemma nodup_toString (ns : list N) : NoDup ns -> NoDup (map toString ns).
Proof.
  induction 1 as [|a l Hin Hnd IH]; simpl; constructor; [| exact IH].
  intros H. apply in_map_iff in H as (b & Hb & Hbl).
  apply toString_inj in Hb. now subst.
Qed.

Lemma below_weaken (ns : list N) (b b' : N) :
  (b <= b')%N -> Forall (fun n => (n < b)%N) ns -> Forall (fun n => (n < b')%N) ns.
Proof.
  intros Hb H. eapply Forall_impl; [| exact H]. simpl. intros. lia.
Qed.

(** Under a steady clock the identifiers of the log are the decimal forms
    of an increasing sequence of numbers. *)
Lemma run_ids_increasing (env : Env) (evs : list Event) :
  forall (w : World) (bound : N) (ns : list N),
    nothing_before_mount w ->
    map id (messages (app w)) = map toString ns ->
    StronglySorted N.lt ns ->
    Forall (fun n => (n < bound)%N) ns ->
    steady bound evs = true ->
    exists ns' : list N,
      map id (messages (app (fst (run env w evs)))) = map toString ns'
      /\ StronglySorted N.lt ns'.
Proof.
  induction evs as [|ev evs IH]; intros w bound ns Hw Hids Hs Hb Hsteady.
  - exists ns. auto.
  - simpl. rewrite fst_and_then. simpl in Hsteady.
    pose proof (step_extends_log env w ev Hw) as [Hw' _].
    assert (Hstep :
              match clock_of ev with
              | Some t =>
                  map id (messages (app (fst (step env w ev)))) = map toString ns
                  \/ map id (messages (app (fst (step env w ev))))
                     = map toString (ns ++ [t])
                  \/ map id (messages (app (fst (step env w ev))))
                     = map toString (ns ++ [(t + 1)%N])
              | None =>
                  map id (messages (app (fst (step env w ev)))) = map toString ns
              end).
    { destruct (before_mount_cases w Hw) as [-> | Hm].
      - simpl in Hids. destruct ns; [| discriminate].
        pose proof (step_ids_initial env ev) as H.
        destruct (clock_of ev); [destruct H as [H | H]; rewrite H; auto | exact H].
      - pose proof (step_ids_mounted env w ev Hm) as H.
        rewrite Hids in H.
        destruct (clock_of ev); [rewrite !map_app |]; exact H. }
    destruct (clock_of ev) as [t|].
    + apply andb_true_iff in Hsteady as [Hle Hrest].
      apply N.leb_le in Hle.
      destruct Hstep as [H | [H | H]].
      * apply (IH _ (t + 2)%N ns); auto.
        apply (below_weaken ns bound); [lia | exact Hb].
      * apply (IH _ (t + 2)%N (ns ++ [t])%list); auto.
        -- apply sorted_snoc; [exact Hs |].
           apply (below_weaken ns bound); [lia | exact Hb].
        -- apply Forall_app. split.
           ++ apply (below_weaken ns bound); [lia | exact Hb].
           ++ repeat constructor. lia.
      * apply (IH _ (t + 2)%N (ns ++ [(t + 1)%N])%list); auto.
        -- apply sorted_snoc; [exact Hs |].
           apply (below_weaken ns bound); [lia | exact Hb].
        -- apply Forall_app. split.
           ++ apply (below_weaken ns bound); [lia | exact Hb].
           ++ repeat constructor. lia.
    + apply (IH _ bound ns); auto.
Qed.

(** X13.  The identifiers of the log are pairwise distinct whenever every event
    that reads the clock for a Turn (the mount, the end of a recording, the
    settling of a request) reads at least two milliseconds more than the
    one before it. *)
Theorem ids_distinct_under_steady_clock (env : Env) (evs : list Event) :
  steady 0 evs = true ->
  NoDup (map id (messages (app (state_after env evs)))).
Proof.
  intros Hsteady.
  destruct (run_ids_increasing env evs initial 0%N [])
    as (ns & Hids & Hs); auto.
  - intros _. reflexivity.
  - constructor.
  - unfold state_after. rewrite Hids.
    apply nodup_toString, sorted_nodup, Hs.
Qed.

Lemma ids_distinct_under_steady_clock_witness :
  NoDup
    (map id
       (messages
          (app
             (state_after Scenario.env
                (Scenario.awaiting_reply
                 ++ [BackendSettled (geminiService.SendOk "Hello") 5400]))))).
Proof.
  exact (ids_distinct_under_steady_clock Scenario.env
           (Scenario.awaiting_reply
            ++ [BackendSettled (geminiService.SendOk "Hello") 5400])
           eq_refl).
Defined.

(** * A failed initialization *)

Lemma stalled_step (env : Env) (m : string) (ev : Event) :
  step env (stalled m) ev = (stalled m, []).
Proof.
  destruct env as [k r t].
  destruct ev; destruct r; reflexivity.
Qed.

Lemma stalled_run (env : Env) (m : string) (evs : list Event) :
  run env (stalled m) evs = (stalled m, []).
Proof.
  induction evs as [|ev evs IH]; simpl; [reflexivity |].
  rewrite stalled_step. unfold and_then. now rewrite IH.
Qed.

(** X1.  When the credential is present and creating the chat session throws,
    the banner names the cause ([Unknown error] when the thrown value has
    no message), the page keeps showing the initializing spinner with no
    message and no start button and with the microphone button disabled,
    and no later event changes anything or makes a call: only a reload
    helps. *)
Theorem failed_initialization_is_terminal
    (env : Env) (m : string) (now : N) :
  API_KEY env = true ->
  let '(w, calls) := step env initial (Mount (geminiService.CreateThrows m) now) in
  calls = [chats_create]
  /\ chat (app w) = None
  /\ render w
     = Main (mkMain (Some (initialization_banner m)) true [] None true)
  /\ initialization_banner m
     = "Initialization failed: "
       ++ (if truthy m then m else "Unknown error")
       ++ ". Please ensure your API key is valid and check network connection."
  /\ forall evs : list Event, run env w evs = (w, []).
Proof.
  intros Hkey.
  assert (Hstep : step env initial (Mount (geminiService.CreateThrows m) now)
                  = (stalled m, [chats_create])).
  { destruct env as [k r t]. simpl in Hkey. subst k. destruct r; reflexivity. }
  rewrite Hstep. repeat split.
  intros evs. apply stalled_run.
Qed.

Lemma failed_initialization_is_terminal_witness :
  let '(w, calls) :=
    step Scenario.env initial (Mount (geminiService.CreateThrows "") 1000) in
  calls = [chats_create]
  /\ chat (app w) = None
  /\ render w
     = Main (mkMain (Some (initialization_banner "")) true [] None true)
  /\ initialization_banner ""
     = "Initialization failed: "
       ++ (if truthy "" then "" else "Unknown error")
       ++ ". Please ensure your API key is valid and check network connection."
  /\ forall evs : list Event, run Scenario.env w evs = (w, []).
Proof.
  exact (failed_initialization_is_terminal Scenario.env "" 1000 eq_refl).
Defined.

(** * More on speech input *)

Lemma onresult_loop_interim (rs : list SpeechRecognitionResult) (i f : string) :
  fst (onresult_loop rs i f)
  = i ++ joined (map transcript (filter (fun r => negb (isFinal r)) rs)).
Proof.
  revert i f. induction rs as [|r rs IH]; intros i f; simpl.
  - now rewrite append_empty_r.
  - destruct (isFinal r); simpl; rewrite IH; [reflexivity |].
    now rewrite append_assoc.
Qed.

Lemma onresult_interim (event : SpeechRecognitionEvent) (w : World) :
  interimTranscript (app (onresult event w)) = partial_of event.
Proof.
  unfold onresult, partial_of.
  pose proof (onresult_loop_interim (skipn (resultIndex event) (results event)) ""
                (userTranscriptRef (app w))) as H.
  destruct (onresult_loop _ _ _) as [i f]. simpl in *. exact H.
Qed.

(** X2.  The partial text on display is replaced, not accumulated: after any
    number of result events during a recording, the interim transcript is
    made of the partial segments of the last event alone, while the final
    transcript has gathered the final segments of all of them. *)
Theorem interim_is_last_event
    (env : Env) (c : Chat) (w : World)
    (events : list SpeechRecognitionEvent) (last : SpeechRecognitionEvent) :
  recording_with c w ->
  let w' := fst (run env w (map RecognitionResult (events ++ [last]))) in
  interimTranscript (app w') = partial_of last
  /\ userTranscriptRef (app w')
     = userTranscriptRef (app w) ++ spaced (finalized (events ++ [last])).
Proof.
  intros Hrec. simpl.
  pose proof (results_run env c (events ++ [last]) w Hrec) as Hall.
  rewrite map_app in *. simpl map in *.
  rewrite run_snoc in *. rewrite fst_and_then.
  pose proof (results_run env c events w Hrec) as H1.
  destruct (run env w (map RecognitionResult events)) as [w1 c1].
  destruct H1 as ((Ha & Hh & Hc) & _). simpl fst in *.
  split.
  - unfold step, dispatch. rewrite Ha, Hh. unfold quiet. simpl.
    rewrite recognition_effect_app. apply onresult_interim.
  - unfold and_then in Hall.
    destruct (step env w1 (RecognitionResult last)) as [w2 c2].
    simpl. apply Hall.
Qed.

Lemma interim_is_last_event_witness :
  let w := state_after Scenario.env Scenario.listening in
  let w' :=
    fst (run Scenario.env w
           (map RecognitionResult
              ([Scenario.partial "Hello"; Scenario.final "Hello there"]
               ++ [mkResultEvent 1
                     [mkResult "Hello there" true; mkResult "how" false;
                      mkResult " are" false]]))) in
  interimTranscript (app w')
  = partial_of
      (mkResultEvent 1
         [mkResult "Hello there" true; mkResult "how" false; mkResult " are" false])
  /\ userTranscriptRef (app w')
     = userTranscriptRef (app w)
       ++ spaced
            (finalized
               ([Scenario.partial "Hello"; Scenario.final "Hello there"]
                ++ [mkResultEvent 1
                      [mkResult "Hello there" true; mkResult "how" false;
                       mkResult " are" false]])).
Proof.
  exact (interim_is_last_event Scenario.env Scenario.session
           (state_after Scenario.env Scenario.listening)
           [Scenario.partial "Hello"; Scenario.final "Hello there"]
           (mkResultEvent 1
              [mkResult "Hello there" true; mkResult "how" false;
               mkResult " are" false])
           (conj eq_refl (conj eq_refl eq_refl))).
Defined.

(** X3.  An event whose [resultIndex] is not below the number of its results is
    read as carrying nothing: during a recording it clears the interim
    transcript and leaves the final transcript and the log as they are. *)
Theorem result_index_out_of_range
    (env : Env) (c : Chat) (w : World) (event : SpeechRecognitionEvent) :
  recording_with c w ->
  length (results event) <= resultIndex event ->
  let '(w', calls) := step env w (RecognitionResult event) in
  calls = []
  /\ interimTranscript (app w') = ""
  /\ userTranscriptRef (app w') = userTranscriptRef (app w)
  /\ messages (app w') = messages (app w).
Proof.
  intros Hrec Hlen.
  pose proof (result_step env c w event Hrec) as H.
  assert (Hi : interimTranscript (app (fst (step env w (RecognitionResult event)))) = "").
  { destruct Hrec as (Ha & Hh & _).
    unfold step, dispatch. rewrite Ha, Hh. unfold quiet. simpl.
    rewrite recognition_effect_app, onresult_interim.
    unfold partial_of. now rewrite skipn_all2. }
  destruct (step env w (RecognitionResult event)) as [w' calls].
  destruct H as (_ & Hc & Hm & Hr). simpl in Hi.
  unfold finalized_of in Hr. rewrite skipn_all2 in Hr by exact Hlen.
  simpl in Hr. rewrite append_empty_r in Hr. auto.
Qed.

Lemma result_index_out_of_range_witness :
  let w :=
    state_after Scenario.env
      (Scenario.listening ++ [RecognitionResult (Scenario.partial "Hel")]) in
  let '(w', calls) :=
    step Scenario.env w
      (RecognitionResult (mkResultEvent 2 [mkResult "Hello" true; mkResult "x" false])) in
  calls = []
  /\ interimTranscript (app w') = ""
  /\ userTranscriptRef (app w') = userTranscriptRef (app w)
  /\ messages (app w') = messages (app w).
Proof.
  exact (result_index_out_of_range Scenario.env Scenario.session
           (state_after Scenario.env
              (Scenario.listening ++ [RecognitionResult (Scenario.partial "Hel")]))
           (mkResultEvent 2 [mkResult "Hello" true; mkResult "x" false])
           (conj eq_refl (conj eq_refl eq_refl)) (le_n 2)).
Defined.

(** X4.  A recognition error discards what has been heard: whatever the error
    code and whatever the transcripts held, after the error and the end of
    the recording that follows it nothing has been sent or logged, a banner
    is shown, the recording flag is down, the loading flag is as it was, and
    both transcripts are empty. *)
Theorem recognition_error_discards
    (env : Env) (c : Chat) (w : World)
    (code : SpeechRecognitionErrorCode) (now : N) :
  recording_with c w ->
  let '(w', calls) := run env w [RecognitionError code; RecognitionEnd now] in
  calls = []
  /\ messages (app w') = messages (app w)
  /\ backendPending (browser w') = backendPending (browser w)
  /\ isRecording (app w') = false
  /\ isLoadingAI (app w') = isLoadingAI (app w)
  /\ userTranscriptRef (app w') = ""
  /\ interimTranscript (app w') = ""
  /\ match error (app w') with
     | Some banner => truthy banner = true
     | None => False
     end.
Proof.
  unfold recording_with. intros (Ha & Hh & Hc).
  destruct w as [a b]. destruct a, b. destruct env as [k r t].
  simpl in *. subst.
  destruct code, r; repeat split; reflexivity.
Qed.

Lemma recognition_error_discards_witness :
  let w :=
    state_after Scenario.env
      (Scenario.listening ++ [RecognitionResult (Scenario.final "Hello")]) in
  userTranscriptRef (app w) = "Hello "
  /\ let '(w', calls) :=
       run Scenario.env w [RecognitionError network; RecognitionEnd 5000] in
     calls = []
     /\ messages (app w') = messages (app w)
     /\ backendPending (browser w') = backendPending (browser w)
     /\ isRecording (app w') = false
     /\ isLoadingAI (app w') = isLoadingAI (app w)
     /\ userTranscriptRef (app w') = ""
     /\ interimTranscript (app w') = ""
     /\ match error (app w') with
        | Some banner => truthy banner = true
        | None => False
        end.
Proof.
  split; [reflexivity |].
  exact (recognition_error_discards Scenario.env Scenario.session
           (state_after Scenario.env
              (Scenario.listening ++ [RecognitionResult (Scenario.final "Hello")]))
           network 5000 (conj eq_refl (conj eq_refl eq_refl))).
Defined.

Lemma stopped_session_sends_spaced_finals_witness :
  send_calls
    (snd (run Scenario.env (state_after Scenario.env Scenario.listening)
            (map RecognitionResult [Scenario.partial "Hello"]
             ++ ClickMic
                :: map RecognitionResult [Scenario.final "Hello, how are you?"]
             ++ [RecognitionEnd 5000])))
  = (if truthy
          (trim
             (spaced
                (finalized
                   ([Scenario.partial "Hello"]
                    ++ [Scenario.final "Hello, how are you?"]))))
     then
       [trim
          (spaced
             (finalized
                ([Scenario.partial "Hello"] ++ [Scenario.final "Hello, how are you?"])))]
     else []).
Proof.
  exact (stopped_session_sends_spaced_finals Scenario.env Scenario.session
           (state_after Scenario.env Scenario.listening)
           [Scenario.partial "Hello"] [Scenario.final "Hello, how are you?"] 5000
           eq_refl (conj eq_refl (conj eq_refl eq_refl)) eq_refl).
Defined.

(** * One exchange *)

(** X14.  A recording that ends with something to send, followed by the settling
    of its request at a clock reading that is not earlier, logs two Turns:
    the user's, then the agent's (the reply or the fallback), under
    different identifiers. *)
Theorem exchange_logs_two_turns
    (env : Env) (c : Chat) (w : World)
    (o : geminiService.SendOutcome) (now now' : N) :
  recording_with c w ->
  truthy (trim (userTranscriptRef (app w))) = true ->
  (now <= now')%N ->
  let w' := fst (run env w [RecognitionEnd now; BackendSettled o now']) in
  exists reply : string,
    messages (app w')
    = (messages (app w)
       ++ [mkMessage (toString now) (trim (userTranscriptRef (app w))) USER now;
           mkMessage (toString (now' + 1)) reply AI now'])%list
    /\ toString now <> toString (now' + 1)
    /\ (reply = fallbackMessage
        \/ geminiService.getAIChatResponse env o = Returned reply).
Proof.
  unfold recording_with. intros (Ha & Hh & Hc) Htext Hle.
  destruct w as [a b]. destruct a, b. simpl in *. subst.
  unfold run, and_then, step, dispatch. simpl.
  unfold onend, processAndSendTranscript. simpl. rewrite Htext. simpl.
  unfold processAndSendTranscript_settled.
  destruct (geminiService.getAIChatResponse env o) as [reply | m] eqn:E.
  - exists reply. unfold speakText, and_then, quiet, recognition_effect.
    destruct env as [k r t]. simpl.
    destruct r, t, synthSpeaking0; simpl;
      rewrite <- app_assoc; simpl;
      (split; [reflexivity | split; [apply reply_id_differs, Hle | now right]]).
  - exists fallbackMessage. unfold speakText, and_then, quiet, recognition_effect.
    destruct env as [k r t]. simpl.
    destruct r, t, synthSpeaking0; simpl;
      rewrite <- app_assoc; simpl;
      (split; [reflexivity | split; [apply reply_id_differs, Hle | now left]]).
Qed.

Lemma exchange_logs_two_turns_witness :
  let w :=
    state_after Scenario.env
      (Scenario.listening ++ [RecognitionResult (Scenario.final "hi")]) in
  let w' :=
    fst (run Scenario.env w
           [RecognitionEnd 5000; BackendSettled (geminiService.SendOk "Hello") 5000]) in
  exists reply : string,
    messages (app w')
    = (messages (app w)
       ++ [mkMessage (toString 5000) (trim (userTranscriptRef (app w))) USER 5000;
           mkMessage (toString (5000 + 1)) reply AI 5000])%list
    /\ toString 5000 <> toString (5000 + 1)
    /\ (reply = fallbackMessage
        \/ geminiService.getAIChatResponse Scenario.env (geminiService.SendOk "Hello")
           = Returned reply).
Proof.
  exact (exchange_logs_two_turns Scenario.env Scenario.session
           (state_after Scenario.env
              (Scenario.listening ++ [RecognitionResult (Scenario.final "hi")]))
           (geminiService.SendOk "Hello") 5000 5000
           (conj eq_refl (conj eq_refl eq_refl)) eq_refl
           (N.le_refl 5000)).
Defined.

(** * More on the microphone button *)

(** X15.  A refused microphone is recoverable: when the page is started and idle,
    a press followed by the rejection of [getUserMedia] starts no recording
    and touches neither the log nor the transcripts; the banner tells a
    denied permission from any other failure; and the next press asks for
    the microphone again. *)
Theorem refused_microphone_is_recoverable
    (env : Env) (w : World) (name : string) :
  hasRecognition env = true ->
  apiKeyMissing (app w) = false ->
  isInitialized (app w) = true ->
  conversationStarted (app w) = true ->
  isLoadingAI (app w) = false ->
  isRecording (app w) = false ->
  gumPending (browser w) = 0 ->
  let '(w', calls) := run env w [ClickMic; GetUserMediaRejected name] in
  calls = ((if isAISpeaking (app w) then [synth_cancel] else []) ++ [getUserMedia])%list
  /\ isRecording (app w') = false
  /\ recActive (browser w') = recActive (browser w)
  /\ messages (app w') = messages (app w)
  /\ userTranscriptRef (app w') = userTranscriptRef (app w)
  /\ error (app w')
     = Some
         (if (name =? "NotAllowedError") || (name =? "PermissionDeniedError")
          then "Microphone access denied. Please enable microphone permissions in your browser settings."
          else "Could not start recording. Please check microphone.")
  /\ snd (step env w' ClickMic) = [getUserMedia].
Proof.
  intros Hr Hk Hi Hs Hl Hrec Hg.
  destruct w as [a b]. destruct a, b. destruct env as [k r t].
  simpl in *. subst.
  destruct isAISpeaking0; repeat split; reflexivity.
Qed.

Lemma refused_microphone_is_recoverable_witness :
  let w := state_after Scenario.env Scenario.greeted in
  let '(w', calls) :=
    run Scenario.env w [ClickMic; GetUserMediaRejected "NotAllowedError"] in
  calls = ((if isAISpeaking (app w) then [synth_cancel] else []) ++ [getUserMedia])%list
  /\ isRecording (app w') = false
  /\ recActive (browser w') = recActive (browser w)
  /\ messages (app w') = messages (app w)
  /\ userTranscriptRef (app w') = userTranscriptRef (app w)
  /\ error (app w')
     = Some
         (if ("NotAllowedError" =? "NotAllowedError")
             || ("NotAllowedError" =? "PermissionDeniedError")
          then "Microphone access denied. Please enable microphone permissions in your browser settings."
          else "Could not start recording. Please check microphone.")
  /\ snd (step Scenario.env w' ClickMic) = [getUserMedia].
Proof.
  exact (refused_microphone_is_recoverable Scenario.env
           (state_after Scenario.env Scenario.greeted) "NotAllowedError"
           eq_refl eq_refl eq_refl eq_refl eq_refl eq_refl eq_refl).
Defined.

(** X16.  The microphone button cannot stop a recording in which nothing
    has been heard, and stops it as soon as a partial text is on display:
    on a started, idle page, once a press and the granting of the
    microphone have started a recording, a further press does nothing; and
    after a result event that carries a partial text, a press calls
    [recognition.stop()], lowers the recording flag, and keeps the final
    transcript for the end of the recording. *)
Theorem stop_needs_something_heard
    (env : Env) (w : World) (event : SpeechRecognitionEvent) :
  hasRecognition env = true ->
  apiKeyMissing (app w) = false ->
  isInitialized (app w) = true ->
  conversationStarted (app w) = true ->
  isLoadingAI (app w) = false ->
  isRecording (app w) = false ->
  recActive (browser w) = false ->
  gumPending (browser w) = 0 ->
  truthy (partial_of event) = true ->
  let listening := fst (run env w [ClickMic; GetUserMediaResolved]) in
  let hearing := fst (step env listening (RecognitionResult event)) in
  isRecording (app listening) = true
  /\ step env listening ClickMic = (listening, [])
  /\ interimTranscript (app hearing) = partial_of event
  /\ snd (step env hearing ClickMic) = [recognition_stop]
  /\ isRecording (app (fst (step env hearing ClickMic))) = false
  /\ userTranscriptRef (app (fst (step env hearing ClickMic)))
     = userTranscriptRef (app hearing).
Proof.
  intros Hr Hk Hi Hs Hl Hrec Hact Hg Hheard listening.
  destruct w as [a b]. destruct a, b. destruct env as [k r t].
  simpl in Hr, Hk, Hi, Hs, Hl, Hrec, Hact, Hg. subst.
  assert (Hlistening :
            listening
            = mkWorld
                (mkApp chat0 messages0 true "" "" false false None true false true)
                (mkBrowser mounted0 (Some (mkClosure true chat0)) true 0
                   backendPending0
                   (if isAISpeaking0 then 0 else synthQueued0)
                   (if isAISpeaking0 then false else synthSpeaking0)
                   (if isAISpeaking0
                    then synthDropped0 + synthQueued0
                         + (if synthSpeaking0 then 1 else 0)
                    else synthDropped0))).
  { subst listening. destruct isAISpeaking0; reflexivity. }
  clearbody listening. subst listening. cbv zeta.
  split; [reflexivity |]. split; [reflexivity |].
  match goal with
  | |- context [fst (step ?e ?l (RecognitionResult event))] =>
      assert (Hhearing :
                fst (step e l (RecognitionResult event))
                = recognition_effect e (onresult event l))
        by reflexivity;
      rewrite !Hhearing; clear Hhearing;
      pose proof (onresult_interim event l) as Hinterim;
      revert Hinterim
  end.
  unfold onresult. cbn [app userTranscriptRef].
  destruct (onresult_loop (skipn (resultIndex event) (results event)) "" "")
    as [i f].
  simpl. intros Hinterim. subst i.
  unfold recognition_effect. simpl.
  split; [reflexivity |].
  unfold step, dispatch, render. simpl. rewrite Hheard. simpl.
  repeat split; reflexivity.
Qed.

Lemma stop_needs_something_heard_witness :
  let w := state_after Scenario.env Scenario.greeted in
  let event := Scenario.partial "Hello" in
  let listening := fst (run Scenario.env w [ClickMic; GetUserMediaResolved]) in
  let hearing := fst (step Scenario.env listening (RecognitionResult event)) in
  isRecording (app listening) = true
  /\ step Scenario.env listening ClickMic = (listening, [])
  /\ interimTranscript (app hearing) = partial_of event
  /\ snd (step Scenario.env hearing ClickMic) = [recognition_stop]
  /\ isRecording (app (fst (step Scenario.env hearing ClickMic))) = false
  /\ userTranscriptRef (app (fst (step Scenario.env hearing ClickMic)))
     = userTranscriptRef (app hearing).
Proof.
  exact (stop_needs_something_heard Scenario.env
           (state_after Scenario.env Scenario.greeted) (Scenario.partial "Hello")
           eq_refl eq_refl eq_refl eq_refl eq_refl eq_refl eq_refl eq_refl eq_refl).
Defined.

(** * The chat service *)

(** X17.  A failure of [getAIChatResponse] always carries a message: without the
    credential the fixed one, with it a text that starts with
    [Failed to get AI response].  So the banner of a failed request is
    [Error getting AI response: ] followed by that message, never the
    [Unknown error] of line 113. *)
Theorem backend_failure_has_a_message
    (env : Env) (o : geminiService.SendOutcome) (m : string) :
  geminiService.getAIChatResponse env o = Thrown m ->
  truthy m = true
  /\ backend_error_banner m = "Error getting AI response: " ++ m
  /\ (if API_KEY env
      then prefix "Failed to get AI response" m = true
      else m = "API_KEY environment variable is not set. Cannot get AI response.").
Proof.
  unfold geminiService.getAIChatResponse, backend_error_banner, or_else.
  destruct (API_KEY env); simpl.
  - destruct o; intros H; inversion H; subst; repeat split.
  - intros H. inversion H; subst. repeat split.
Qed.

Lemma backend_failure_has_a_message_witness :
  truthy "Failed to get AI response: Failed to fetch" = true
  /\ backend_error_banner "Failed to get AI response: Failed to fetch"
     = "Error getting AI response: " ++ "Failed to get AI response: Failed to fetch"
  /\ (if API_KEY Scenario.env
      then prefix "Failed to get AI response"
             "Failed to get AI response: Failed to fetch" = true
      else "Failed to get AI response: Failed to fetch"
           = "API_KEY environment variable is not set. Cannot get AI response.").
Proof.
  exact (backend_failure_has_a_message Scenario.env
           (geminiService.SendError "Failed to fetch")
           "Failed to get AI response: Failed to fetch" eq_refl).
Defined.

(** * The recording flag *)

Lemma step_recording_is_active (env : Env) (w : World) (ev : Event) :
  hasRecognition env = true ->
  (isRecording (app w) = true ->
   recActive (browser w) = true
   /\ option_map cl_isRecording (recHandlers (browser w)) = Some true) ->
  isRecording (app (fst (step env w ev))) = true ->
  recActive (browser (fst (step env w ev))) = true
  /\ option_map cl_isRecording (recHandlers (browser (fst (step env w ev))))
     = Some true.
Proof.
  intros Hr H.
  destruct w as [a b]. destruct a, b. destruct env as [k r t].
  simpl in *. subst.
  destruct isRecording0.
  - destruct (H eq_refl) as [H1 H2]. clear H. subst.
    destruct recHandlers0 as [[cr cc]|]; simpl in H2; [| discriminate].
    injection H2 as ->.
    destruct ev; open_step; split_tests;
      intros Hrec; simpl in *;
      first [discriminate | contradictory | split; reflexivity].
  - clear H.
    destruct ev; open_step; split_tests;
      intros Hrec; simpl in *;
      first [discriminate | contradictory | split; reflexivity].
Qed.

(** X18.  The recording indicator is never shown over a recognizer that is not
    running: whenever [isRecording] is true, [recognition.start()] has been
    accepted and the recognizer has not ended since, and the handlers on it
    are those of a render in which [isRecording] held, so that its end will
    be processed. *)
Theorem recording_flag_means_listening (env : Env) (evs : list Event) :
  hasRecognition env = true ->
  isRecording (app (state_after env evs)) = true ->
  recActive (browser (state_after env evs)) = true
  /\ option_map cl_isRecording (recHandlers (browser (state_after env evs)))
     = Some true.
Proof.
  intros Hr.
  apply (states_ind env
           (fun w =>
              isRecording (app w) = true ->
              recActive (browser w) = true
              /\ option_map cl_isRecording (recHandlers (browser w)) = Some true)).
  - discriminate.
  - intros w ev _ H. now apply step_recording_is_active.
Qed.

Lemma recording_flag_means_listening_witness :
  recActive (browser (state_after Scenario.env Scenario.listening)) = true
  /\ option_map cl_isRecording
       (recHandlers (browser (state_after Scenario.env Scenario.listening)))
     = Some true.
Proof.
  exact (recording_flag_means_listening Scenario.env Scenario.listening
           eq_refl eq_refl).
Defined.

(** * The start button on a page without speech synthesis *)

(** X19.  On a page without speech synthesis the start handler leaves no banner:
    the text-to-speech message that [speakText] sets is cleared by the
    [setError(null)] that follows it, nothing is spoken, and the
    conversation counts as started. *)
Theorem start_hides_missing_synthesis (env : Env) (w : World) :
  hasSpeechSynthesis env = false ->
  let '(w', calls) := handleStartConversation env w in
  calls = []
  /\ error (app w') = None
  /\ conversationStarted (app w') = true
  /\ messages (app w') = messages (app w).
Proof.
  intros Ht. unfold handleStartConversation, speakText. rewrite Ht. simpl.
  destruct (messages (app w)) as [|m rest] eqn:Em; simpl.
  - rewrite Em. repeat split.
  - destruct (Sender_eqb (sender m) AI && negb (conversationStarted (app w)));
      simpl; rewrite Em; repeat split.
Qed.

Lemma start_hides_missing_synthesis_witness :
  let w :=
    state_after Scenario.env_mute
      [Mount (geminiService.CreateOk Scenario.session) 1000] in
  let '(w', calls) := handleStartConversation Scenario.env_mute w in
  calls = []
  /\ error (app w') = None
  /\ conversationStarted (app w') = true
  /\ messages (app w') = messages (app w).
Proof.
  exact (start_hides_missing_synthesis Scenario.env_mute
           (state_after Scenario.env_mute
              [Mount (geminiService.CreateOk Scenario.session) 1000])
           eq_refl).
Defined.

Lemma press_while_speaking_cancels_first_witness :
  let w := state_after Scenario.env (Scenario.started ++ [UtteranceStart]) in
  isAISpeaking (app w) = true
  /\ let '(w', calls) := run Scenario.env w [ClickMic; GetUserMediaResolved] in
     calls = [synth_cancel; getUserMedia; recognition_start]
     /\ isRecording (app w') = true
     /\ isAISpeaking (app w') = false
     /\ synthSpeaking (browser w') = false.
Proof.
  split; [reflexivity |].
  exact (press_while_speaking_cancels_first Scenario.env
           (state_after Scenario.env (Scenario.started ++ [UtteranceStart]))
           eq_refl eq_refl eq_refl eq_refl eq_refl eq_refl eq_refl eq_refl eq_refl).
Defined.
